(** * ts-pretty: the in-memory compiler host and the format-settings resolver

  A shallow embedding of [src/cust-compiler-host.ts] (class
  [CustCompilerHost]) and of the two protected methods of
  [TypeScriptParser] in [src/index.ts] ([makeFormatCodeSettings] and
  [tsPrintSourceFile]), with the properties the specification states
  about them.

  Conventions of the embedding:
  - a JavaScript string that is sliced is a list of code units
    ([text]); a string that is only compared or used as a key is a
    [string];
  - a JavaScript [Map] is a [gmap]; [Map.get] is [!!], [Map.set] is
    [<[k:=v]>];
  - a JavaScript number that the code only counts with or compares is
    a [Z];
  - a method reads and updates an explicit state ([World] for the host,
    [Env] for the parser). *)

From Stdlib Require Import ZArith Ascii String List Permutation Lia.
From stdpp Require Import base option gmap strings list pretty.

Local Open Scope Z_scope.

(** ** JavaScript strings and arrays *)

Module JS.

(** One element per code unit. *)
Abbreviation text := (list ascii).

Definition txt (s : string) : text := list_ascii_of_string s.

(** [ToBoolean] on a string: only the empty string is falsy. *)
Definition truthyText (s : text) : bool :=
  match s with [] => false | _ :: _ => true end.

(** The index arithmetic of [String.prototype.slice]: a negative
    index counts from the end, and both ends are clamped to
    [0 .. len]. *)
Definition clampIndex (len i : Z) : Z :=
  if i <? 0 then Z.max (len + i) 0 else Z.min i len.

(** [s.slice(start, end)] *)
Definition slice (s : text) (start end_ : Z) : text :=
  let len := Z.of_nat (length s) in
  let from := clampIndex len start in
  let to := clampIndex len end_ in
  take (Z.to_nat (to - from)) (drop (Z.to_nat from) s).

(** [s.slice(start)]: the end defaults to the length. *)
Definition sliceFrom (s : text) (start : Z) : text :=
  slice s start (Z.of_nat (length s)).

(** [Array.prototype.sort(compareFn)] is a stable sort: [x] goes in
    front of [y] when [compareFn x y < 0], and elements that compare
    equal keep their order. Insertion from the right is such a sort. *)
Fixpoint sortInsert {A} (compareFn : A -> A -> Z) (x : A) (l : list A) : list A :=
  match l with
  | [] => [x]
  | y :: l' =>
      if compareFn x y <=? 0 then x :: l else y :: sortInsert compareFn x l'
  end.

Definition sort {A} (compareFn : A -> A -> Z) (l : list A) : list A :=
  foldr (sortInsert compareFn) [] l.

End JS.

(** ** [CustCompilerHost] *)

Module CustCompilerHost.
Import JS.

(** [ts.TextSpan] and [ts.TextChange]. *)
Record TextSpan := { start : Z; length' : Z }.
Record TextChange := { span : TextSpan; newText : text }.

(** What this code keeps of a [ts.SourceFile]: [ts.createSourceFile]
    is given a name, a text and a language version, and the record
    holds these three arguments. What the library makes of the name
    (it stores a normalised form) is not modelled. *)
Record SourceFile :=
  { sf_fileName : string; sf_text : text; languageVersion : Z }.

Definition createSourceFile (fileName : string) (t : text) (v : Z) : SourceFile :=
  {| sf_fileName := fileName; sf_text := t; languageVersion := v |}.

(** The three maps of the instance. *)
Record Host := {
  files : gmap string text;
  fileVersions : gmap string Z;
  sourceFiles : gmap string SourceFile
}.

(** A reference to an array object. *)
Abbreviation ref := positive.

(** The state a method runs in: the instance, the backing file
    system behind [ts.sys.readFile] with the log of the paths it was
    asked for (latest first), and the array objects of the heap. *)
Record World := {
  this : Host;
  sys_files : gmap string text;
  sys_reads : list string;
  arrays : gmap ref (list TextChange)
}.

Definition with_this (h : Host) (w : World) : World :=
  {| this := h; sys_files := sys_files w; sys_reads := sys_reads w;
     arrays := arrays w |}.

Definition with_arrays (a : gmap ref (list TextChange)) (w : World) : World :=
  {| this := this w; sys_files := sys_files w; sys_reads := sys_reads w;
     arrays := a |}.

(** [new CustCompilerHost(options)] *)
Definition new : Host :=
  {| files := ∅; fileVersions := ∅; sourceFiles := ∅ |}.

(** [ts.sys.readFile(fileName)]: one read of the backing file system. *)
Definition sys_readFile (fileName : string) (w : World) : option text * World :=
  (sys_files w !! fileName,
   {| this := this w; sys_files := sys_files w;
      sys_reads := fileName :: sys_reads w; arrays := arrays w |}).

(** [readFile], lines 55-62. *)
Definition readFile (fileName : string) (w : World) : option text * World :=
  match files (this w) !! fileName with
  | Some t => (Some t, w)
  | None =>
      let '(content, w1) := sys_readFile fileName w in
      match content with
      | Some t =>
          if truthyText t
          then (content,
                with_this {| files := <[fileName := t]> (files (this w1));
                             fileVersions := fileVersions (this w1);
                             sourceFiles := sourceFiles (this w1) |} w1)
          else (content, w1)
      | None => (content, w1)
      end
  end.

(** [writeFile], lines 76-85. *)
Definition writeFile (fileName : string) (t : text) (w : World) : World :=
  let h := this w in
  let files1 := <[fileName := t]> (files h) in
  let sourceFiles1 :=
    match sourceFiles h !! fileName with
    | Some sf =>
        <[fileName := createSourceFile fileName t (languageVersion sf)]> (sourceFiles h)
    | None => sourceFiles h
    end in
  let newVers := default 1 (fileVersions h !! fileName) + 1 in
  with_this {| files := files1;
               fileVersions := <[fileName := newVers]> (fileVersions h);
               sourceFiles := sourceFiles1 |} w.

(** [getScriptVersion], lines 91-97; [String(v)] is the decimal
    numeral of [v]. *)
Definition getScriptVersion (fileName : string) (w : World) : string :=
  match fileVersions (this w) !! fileName with
  | Some v => pretty v
  | None => "1"%string
  end.

(** The body of the [forEach] callback, line 106. *)
Definition applyTextChange (newText0 : text) (textChange : TextChange) : text :=
  let sp := span textChange in
  slice newText0 0 (start sp) ++ newText textChange
    ++ sliceFrom newText0 (start sp + length' sp).

(** The comparison function of line 104. *)
Definition byStartDescending (a b : TextChange) : Z :=
  start (span b) - start (span a).

(** [textChanges.slice(0)]: a new array object with the same
    elements. *)
Definition Array_slice0 (r : ref) (w : World) : option (ref * World) :=
  match arrays w !! r with
  | Some l =>
      let r' := fresh (dom (arrays w)) in
      Some (r', with_arrays (<[r' := l]> (arrays w)) w)
  | None => None
  end.

(** [a.sort(compareFn)] sorts the array object in place and returns
    the same reference. *)
Definition Array_sort (r : ref) (w : World) : option (list TextChange * World) :=
  match arrays w !! r with
  | Some l =>
      let l' := sort byStartDescending l in
      Some (l', with_arrays (<[r := l']> (arrays w)) w)
  | None => None
  end.

(** [applyTextChanges], lines 102-110. The result is [None] where the
    source has no string to work on: [readFile] found no file, which
    the non-null assertion of line 103 assumes away (the embedding
    stops there, after the read), or [textChanges] is not a live
    array. *)
Definition applyTextChanges (fileName : string) (textChanges : ref) (w : World)
  : option text * World :=
  let '(content, w1) := readFile fileName w in
  match content with
  | None => (None, w1)
  | Some newText0 =>
      match Array_slice0 textChanges w1 with
      | None => (None, w1)
      | Some (copy, w2) =>
          match Array_sort copy w2 with
          | None => (None, w2)
          | Some (sorted, w3) =>
              let newText1 := fold_left applyTextChange sorted newText0 in
              (Some newText1, writeFile fileName newText1 w3)
          end
      end
  end.

End CustCompilerHost.

(** ** JavaScript values of the option bag and of a parsed JSON5 file *)

Module Val.

(** Numbers are integers or [NaN]; arrays are not modelled. An object
    is the list of its own properties, each key once. *)
Inductive Value :=
| VUndefined
| VNull
| VBool (b : bool)
| VNumber (n : Z)
| VNaN
| VString (s : string)
| VObject (fields : list (string * Value)).

(** [ToBoolean] *)
Definition toBoolean (v : Value) : bool :=
  match v with
  | VUndefined | VNull | VNaN => false
  | VBool b => b
  | VNumber n => negb (n =? 0)
  | VString s => negb (bool_decide (s = ""%string))
  | VObject _ => true
  end.

(** [typeof v === 'number'] *)
Definition isNumber (v : Value) : bool :=
  match v with VNumber _ | VNaN => true | _ => false end.

(** [v === s] for a string literal [s] *)
Definition isString (v : Value) (s : string) : bool :=
  match v with VString s' => bool_decide (s' = s) | _ => false end.

(** [String.prototype.toLowerCase] on the letters A-Z; the other code
    units of the strings compared here are left as they are. *)
Definition lowerAscii (c : ascii) : ascii :=
  let n := nat_of_ascii c in
  if (65 <=? n)%nat && (n <=? 90)%nat then ascii_of_nat (n + 32) else c.

Fixpoint toLowerCase (s : string) : string :=
  match s with
  | EmptyString => EmptyString
  | String c s' => String (lowerAscii c) (toLowerCase s')
  end.

Definition CR : string := String (ascii_of_nat 13) EmptyString.
Definition LF : string := String (ascii_of_nat 10) EmptyString.
Definition CRLF : string := String (ascii_of_nat 13) LF.

(** [object[key]] on a property list. *)
Fixpoint getField (key : string) (fields : list (string * Value)) : option Value :=
  match fields with
  | [] => None
  | (k, v) :: fields' => if bool_decide (k = key) then Some v else getField key fields'
  end.

(** [object[key] = v] on a property list. *)
Fixpoint setField (key : string) (v : Value) (fields : list (string * Value))
  : list (string * Value) :=
  match fields with
  | [] => [(key, v)]
  | (k, v') :: fields' =>
      if bool_decide (k = key) then (k, v) :: fields'
      else (k, v') :: setField key v fields'
  end.

(** lodash's [baseMerge] of a source object into a destination object,
    as its documentation describes it: a source property that is a
    plain object is merged recursively into the destination property
    (into a new object when the destination property is not an object),
    a source property that is [undefined] is skipped when the
    destination has the key, and any other source property is
    assigned. *)
Fixpoint baseMerge (object : list (string * Value)) (source : Value) {struct source}
  : list (string * Value) :=
  match source with
  | VObject fields =>
      (fix each (fields : list (string * Value)) (object : list (string * Value)) :=
         match fields with
         | [] => object
         | (key, srcValue) :: fields' =>
             each fields'
               match srcValue with
               | VObject _ =>
                   let objValue :=
                     match getField key object with
                     | Some (VObject o) => o
                     | _ => []
                     end in
                   setField key (VObject (baseMerge objValue srcValue)) object
               | VUndefined =>
                   match getField key object with
                   | Some _ => object
                   | None => setField key VUndefined object
                   end
               | _ => setField key srcValue object
               end
         end) fields object
  | _ => object
  end.

(** The value [merge] leaves at [object[key]] for one source property. *)
Definition mergedProperty (objValue : option Value) (srcValue : Value) : Value :=
  match srcValue with
  | VObject _ =>
      VObject (baseMerge match objValue with Some (VObject o) => o | _ => [] end
                         srcValue)
  | VUndefined => default VUndefined objValue
  | _ => srcValue
  end.

(** The own enumerable properties [merge] iterates over for a source:
    those of an object, the single code units of a string under their
    decimal indices, none for a boolean or a number. *)
Fixpoint stringProperties (i : nat) (s : string) : list (string * Value) :=
  match s with
  | EmptyString => []
  | String c s' => (pretty i, VString (String c EmptyString)) :: stringProperties (S i) s'
  end.

Definition sourceProperties (source : Value) : list (string * Value) :=
  match source with
  | VObject fields => fields
  | VString s => stringProperties 0 s
  | _ => []
  end.

(** lodash's [merge(object, source)] on a destination held as a map: a
    falsy source is skipped, and each property of a truthy one is
    merged in. *)
Definition merge (object : gmap string Value) (source : Value) : gmap string Value :=
  if toBoolean source
  then fold_left
         (fun (o : gmap string Value) '(key, srcValue) =>
            <[key := mergedProperty (o !! key) srcValue]> o)
         (sourceProperties source) object
  else object.

End Val.

(** ** [TypeScriptParser] *)

Module TypeScriptParser.
Import Val.

(** [ts.SemicolonPreference], [ts.IndentStyle.Smart] and
    [ts.SyntaxKind.StringLiteral] of the TypeScript library. *)
Definition SemicolonPreference_Insert : Value := VString "insert".
Definition SemicolonPreference_Remove : Value := VString "remove".
Definition IndentStyle_Smart : Value := VNumber 2.
Definition StringLiteral : Z := 10.

(** The options the two methods read. [tspTsFormat] is a path or is
    absent; the others are whatever the caller passed. *)
Record Options := {
  endOfLine : Value;
  semi : Value;
  tabWidth : Value;
  useTabs : Value;
  bracketSpacing : Value;
  tspTsFormat : option string;
  singleQuote : Value
}.

(** What a call completes with: a value, or a thrown error. *)
Inductive Error :=
| ENOENT (path : string)
| SyntaxError (text : string)
| PrintError (e : string).

Inductive Completion (A : Type) :=
| Normal (a : A)
| Throw (e : Error).
Arguments Normal {A} a.
Arguments Throw {A} e.

(** The parser instance, lines 109-114. *)
Record Parser := { formatOverrides : Value }.

Definition new : Parser := {| formatOverrides := VUndefined |}.

(** The instance with the file system behind [fs.readFileSync] and the
    log of the paths read from it (latest first). *)
Record Env := {
  this : Parser;
  fs_files : gmap string string;
  fs_reads : list string
}.

(** A syntax tree: the kind of the node, the internal [singleQuote]
    property of a string literal ([None] while it is not set), and the
    children [ts.forEachChild] visits. *)
Inductive Node :=
| mkNode (kind : Z) (singleQuoteProp : option bool) (children : list Node).

(** [ts.getLiteralText(node, sourceFile, flags)] *)
Abbreviation LiteralTextFn := (Node -> option Node -> Z -> string).

(** The part of the [ts] module object that [tsPrintSourceFile]
    assigns to. *)
Record TsModule := { getLiteralText : LiteralTextFn }.

Definition kindOf (n : Node) : Z := match n with mkNode k _ _ => k end.

Section Collaborators.

(** [os.EOL], the [parse] function of json5 ([None] where it throws)
    and [printer.printNode], which runs against the [ts] module as it
    is during the call, may change it, and may throw. *)
Variable EOL : string.
Variable json5Parse : string -> option Value.
Variable printNode : Node -> TsModule -> Completion string * TsModule.

(** Lines 17-46. *)
Definition DefaultFormatCodeSettings : gmap string Value :=
  list_to_map [
    ("baseIndentSize", VNumber 0);
    ("newLineCharacter", VString EOL);
    ("convertTabsToSpaces", VBool false);
    ("tabSize", VNumber 1);
    ("indentSize", VNumber 1);
    ("indentStyle", IndentStyle_Smart);
    ("trimTrailingWhitespace", VBool true);
    ("insertSpaceAfterCommaDelimiter", VBool true);
    ("insertSpaceAfterSemicolonInForStatements", VBool true);
    ("insertSpaceBeforeAndAfterBinaryOperators", VBool true);
    ("insertSpaceAfterConstructor", VBool true);
    ("insertSpaceAfterKeywordsInControlFlowStatements", VBool true);
    ("insertSpaceAfterFunctionKeywordForAnonymousFunctions", VBool true);
    ("insertSpaceAfterOpeningAndBeforeClosingNonemptyParenthesis", VBool false);
    ("insertSpaceAfterOpeningAndBeforeClosingNonemptyBrackets", VBool false);
    ("insertSpaceAfterOpeningAndBeforeClosingNonemptyBraces", VBool true);
    ("insertSpaceAfterOpeningAndBeforeClosingEmptyBraces", VBool false);
    ("insertSpaceAfterOpeningAndBeforeClosingTemplateStringBraces", VBool false);
    ("insertSpaceAfterOpeningAndBeforeClosingJsxExpressionBraces", VBool false);
    ("insertSpaceAfterTypeAssertion", VBool true);
    ("insertSpaceBeforeFunctionParenthesis", VBool false);
    ("placeOpenBraceOnNewLineForFunctions", VBool false);
    ("placeOpenBraceOnNewLineForControlBlocks", VBool false);
    ("insertSpaceBeforeTypeAnnotation", VBool false);
    ("indentMultiLineObjectLiteralBeginningOnBlankLine", VBool true);
    ("semicolons", SemicolonPreference_Insert)
  ]%string.

(** Lines 118-132: the [switch] on [options.endOfLine]. *)
Definition setNewLineCharacter (options : Options) (format : gmap string Value)
  : gmap string Value :=
  if isString (endOfLine options) "crlf" then <["newLineCharacter"%string := VString CRLF]> format
  else if isString (endOfLine options) "lf" then <["newLineCharacter"%string := VString LF]> format
  else if isString (endOfLine options) "cr" then <["newLineCharacter"%string := VString CR]> format
  else delete "newLineCharacter"%string format.

(** Lines 134-135. *)
Definition setSemicolons (options : Options) (format : gmap string Value)
  : gmap string Value :=
  match semi options with
  | VBool b =>
      <["semicolons"%string :=
          if negb b then SemicolonPreference_Remove else SemicolonPreference_Insert]> format
  | _ => format
  end.

(** Lines 137-138: [format.indentSize = format.tabSize = options.tabWidth]. *)
Definition setTabWidth (options : Options) (format : gmap string Value)
  : gmap string Value :=
  if isNumber (tabWidth options)
  then <["indentSize"%string := tabWidth options]>
         (<["tabSize"%string := tabWidth options]> format)
  else format.

(** Lines 140-148. *)
Definition setUseTabs (options : Options) (format : gmap string Value)
  : gmap string Value :=
  match useTabs options with
  | VBool b =>
      let format1 := <["convertTabsToSpaces"%string := VBool (negb b)]> format in
      if toBoolean (default VUndefined (format1 !! "convertTabsToSpaces"%string))
      then if isNumber (tabWidth options)
           then <["indentSize"%string := VNumber 1]>
                  (<["tabSize"%string := VNumber 1]> format1)
           else format1
      else format1
  | _ => delete "convertTabsToSpaces"%string format
  end.

(** Lines 150-151. *)
Definition setBracketSpacing (options : Options) (format : gmap string Value)
  : gmap string Value :=
  match bracketSpacing options with
  | VBool b =>
      <["insertSpaceAfterOpeningAndBeforeClosingNonemptyBrackets"%string := VBool b]> format
  | _ => format
  end.

(** Lines 117-151: the settings before the override file is merged. *)
Definition formatFromOptions (options : Options) : gmap string Value :=
  setBracketSpacing options
    (setUseTabs options
       (setTabWidth options
          (setSemicolons options
             (setNewLineCharacter options DefaultFormatCodeSettings)))).

(** Line 155: [fs.readFileSync(path, 'utf8')]. *)
Definition readFileSync (path : string) (e : Env) : Completion string * Env :=
  let e1 := {| this := this e; fs_files := fs_files e;
               fs_reads := path :: fs_reads e |} in
  match fs_files e !! path with
  | Some t => (Normal t, e1)
  | None => (Throw (ENOENT path), e1)
  end.

(** Lines 154-157: load the override file unless [this.formatOverrides]
    is truthy. *)
Definition loadFormatOverrides (path : string) (e : Env) : Completion unit * Env :=
  if negb (toBoolean (formatOverrides (this e)))
  then
    match readFileSync path e with
    | (Normal t, e1) =>
        match json5Parse t with
        | Some v =>
            (Normal tt,
             {| this := {| formatOverrides := v |}; fs_files := fs_files e1;
                fs_reads := fs_reads e1 |})
        | None => (Throw (SyntaxError t), e1)
        end
    | (Throw err, e1) => (Throw err, e1)
    end
  else (Normal tt, e).

(** Line 153: [if (options.tspTsFormat)] lets a path through that is
    present and not the empty string. *)
Definition truthyPath (path : option string) : option string :=
  match path with
  | Some p => if bool_decide (p = ""%string) then None else Some p
  | None => None
  end.

(** [makeFormatCodeSettings], lines 116-161. *)
Definition makeFormatCodeSettings (options : Options) (e : Env)
  : Completion (gmap string Value) * Env :=
  let format := formatFromOptions options in
  match truthyPath (tspTsFormat options) with
  | Some path =>
      match loadFormatOverrides path e with
      | (Normal _, e1) => (Normal (merge format (formatOverrides (this e1))), e1)
      | (Throw err, e1) => (Throw err, e1)
      end
  | None => (Normal format, e)
  end.

(** Lines 179-196: the quote preference resolved from
    [options.singleQuote], [None] for [undefined]. *)
Definition resolveSingleQuote (singleQuote : Value) : option bool :=
  match singleQuote with
  | VBool b => Some b
  | VNull => Some false
  | VNumber 0 => Some false
  | VString s =>
      if bool_decide (s = "0"%string) then Some false
      else
        let s' := toLowerCase s in
        if bool_decide (s' = "false"%string) || bool_decide (s' = "null"%string)
           || bool_decide (s' = "no"%string)
        then Some false
        else if toBoolean singleQuote then Some true
        else None
  | v => if toBoolean v then Some true else None
  end.

(** Lines 198-207: tag every string literal of the tree. *)
Fixpoint visitNode (singleQuote : bool) (node : Node) : Node :=
  match node with
  | mkNode kind prop children =>
      mkNode kind
        (if kind =? StringLiteral then Some singleQuote else prop)
        (map (visitNode singleQuote) children)
  end.

(** Lines 212-216: the replacement of [ts.getLiteralText]. *)
Definition getLiteralTextPatched (getLiteralTextWrapper : LiteralTextFn) : LiteralTextFn :=
  fun node sourceFile flags =>
    if kindOf node =? StringLiteral
    then getLiteralTextWrapper node None flags
    else getLiteralTextWrapper node sourceFile flags.

(** [try { body } finally { release }]: the release runs on both
    exits and the completion of the body is the completion of the
    whole. *)
Definition try_finally {A} (body : TsModule -> Completion A * TsModule)
    (release : TsModule -> TsModule) (ts : TsModule) : Completion A * TsModule :=
  let '(c, ts1) := body ts in
  match c with
  | Normal a => (Normal a, release ts1)
  | Throw err => (Throw err, release ts1)
  end.

(** [tsPrintSourceFile], lines 177-223. Next to the completion and the
    [ts] module it returns the tree as the call left it. *)
Definition tsPrintSourceFile (sourceFile : Node) (options : Options) (ts : TsModule)
  : Completion string * TsModule * Node :=
  let singleQuote := resolveSingleQuote (singleQuote options) in
  let sourceFile1 :=
    match singleQuote with
    | Some b => visitNode b sourceFile
    | None => sourceFile
    end in
  let getLiteralTextWrapper := getLiteralText ts in
  let ts1 := {| getLiteralText := getLiteralTextPatched getLiteralTextWrapper |} in
  let '(c, ts2) :=
    try_finally (printNode sourceFile1)
      (fun _ => {| getLiteralText := getLiteralTextWrapper |}) ts1 in
  (c, ts2, sourceFile1).

End Collaborators.

End TypeScriptParser.

(** ** What the specification says of a batch of edits *)

Module PatchSpec.
Import JS CustCompilerHost.

Definition startOf (e : TextChange) : Z := start (span e).
Definition endOf (e : TextChange) : Z := start (span e) + length' (span e).

(** An edit is valid within the bounds of [s]. *)
Definition withinBounds (s : text) (e : TextChange) : Prop :=
  0 <= startOf e /\ 0 <= length' (span e) /\ endOf e <= Z.of_nat (length s).

(** Two edits do not overlap: the half-open range of one ends where
    the other starts, or before. *)
Definition separated (a b : TextChange) : Prop :=
  endOf a <= startOf b \/ endOf b <= startOf a.

Fixpoint nonOverlapping (es : list TextChange) : Prop :=
  match es with
  | [] => True
  | e :: es' => Forall (separated e) es' /\ nonOverlapping es'
  end.

(** No two edits of the batch start at the same offset. *)
Definition distinctStarts (es : list TextChange) : Prop :=
  NoDup (map startOf es).

#[global] Instance withinBounds_dec (s : text) (e : TextChange) :
  Decision (withinBounds s e).
Proof. unfold withinBounds. apply _. Defined.

#[global] Instance separated_dec (a b : TextChange) : Decision (separated a b).
Proof. unfold separated. apply _. Defined.

#[global] Instance nonOverlapping_dec (es : list TextChange) :
  Decision (nonOverlapping es).
Proof. induction es; simpl; apply _. Defined.

#[global] Instance distinctStarts_dec (es : list TextChange) :
  Decision (distinctStarts es).
Proof. unfold distinctStarts. apply _. Defined.

(** Splicing every edit against the original offsets, with no order
    among the edits: at offset [i] of the original string come the
    replacements of the edits that start at [i], then the original
    code unit at [i] unless the range of some edit covers it. *)
Definition replacementsAt (es : list TextChange) (i : Z) : text :=
  flat_map newText (filter (fun e => startOf e = i) es).

Definition covered (es : list TextChange) (i : Z) : bool :=
  existsb (fun e => (startOf e <=? i) && (i <? endOf e)) es.

Fixpoint spliceFrom (es : list TextChange) (i : Z) (s : text) : text :=
  match s with
  | [] => replacementsAt es i
  | c :: s' =>
      replacementsAt es i ++ (if covered es i then [] else [c])
        ++ spliceFrom es (i + 1) s'
  end.

Definition spliceSpec (es : list TextChange) (s : text) : text :=
  spliceFrom es 0 s.

(** The shape the sorted batch has when the edits are valid, do not
    overlap and start at distinct offsets: each edit ends at or before
    the bound, and the edits after it start before it and end at or
    before its start. *)
Fixpoint chain (bound : Z) (es : list TextChange) : Prop :=
  match es with
  | [] => True
  | e :: es' =>
      0 <= startOf e /\ 0 <= length' (span e) /\ endOf e <= bound
      /\ Forall (fun e' => startOf e' < startOf e) es'
      /\ chain (startOf e) es'
  end.

(** Starts do not increase along the list. *)
Fixpoint descending (es : list TextChange) : Prop :=
  match es with
  | [] => True
  | e :: es' => Forall (fun e' => startOf e' <= startOf e) es' /\ descending es'
  end.

(** [n] writes to one path. *)
Definition writeAll (fileName : string) (ts : list text) (w : World) : World :=
  fold_left (fun w t => writeFile fileName t w) ts w.

(** A world with a new host, a backing file system and arrays. *)
Definition world (disk : gmap string text) (heap : gmap ref (list TextChange)) : World :=
  {| this := CustCompilerHost.new; sys_files := disk; sys_reads := [];
     arrays := heap |}.

Definition edit (s l : Z) (r : string) : TextChange :=
  {| span := {| start := s; length' := l |}; newText := txt r |}.

End PatchSpec.

(** ** Settings used in the examples *)

Module Samples.
Import Val TypeScriptParser.

(** The result of json5's [parse] on the texts the examples put in an
    override file; the examples parse no other text. *)
Definition json5ParseSample (text : string) : option Value :=
  if bool_decide (text = "null"%string) then Some VNull
  else if bool_decide (text = "{tabSize: 8}"%string)
       then Some (VObject [("tabSize"%string, VNumber 8)])
  else if bool_decide (text = "{newLineCharacter: '\n'}"%string)
       then Some (VObject [("newLineCharacter"%string, VString LF)])
  else None.

(** Option bags with everything else left unset. *)
Definition withTabs (useTabs0 tabWidth0 : Value) : Options :=
  {| endOfLine := VUndefined; semi := VUndefined; tabWidth := tabWidth0;
     useTabs := useTabs0; bracketSpacing := VUndefined; tspTsFormat := None;
     singleQuote := VUndefined |}.

Definition withOverrides (endOfLine0 : Value) (path : string) : Options :=
  {| endOfLine := endOfLine0; semi := VUndefined; tabWidth := VUndefined;
     useTabs := VUndefined; bracketSpacing := VUndefined; tspTsFormat := Some path;
     singleQuote := VUndefined |}.

(** A new parser instance over a file system. *)
Definition env (disk : gmap string string) : Env :=
  {| this := TypeScriptParser.new; fs_files := disk; fs_reads := [] |}.

(** The same instance after the files on disk changed. *)
Definition withDisk (disk : gmap string string) (e : Env) : Env :=
  {| this := this e; fs_files := disk; fs_reads := fs_reads e |}.

(** The keys a source gives to [merge]. *)
Definition suppliesKey (key : string) (source : Value) : Prop :=
  key ∈ (sourceProperties source).*1.

End Samples.

(** ** The other methods of [CustCompilerHost], and [CustLangServiceHost] *)

Module HostMethods.
Import JS CustCompilerHost.

(** [ts.sys.fileExists(fileName)] *)
Definition sys_fileExists (fileName : string) (w : World) : bool :=
  bool_decide (is_Some (sys_files w !! fileName)).

(** [fileExists], lines 49-53. *)
Definition fileExists (fileName : string) (w : World) : bool :=
  if bool_decide (is_Some (files (this w) !! fileName)) then true
  else sys_fileExists fileName w.

(** The second argument of [getSourceFile]: a [ts.ScriptTarget], or a
    [ts.CreateSourceFileOptions] object, of which [ts.createSourceFile]
    takes the language version. *)
Inductive LanguageVersionOrOptions :=
| ScriptTarget (target : Z)
| CreateSourceFileOptions (languageVersion0 : Z).

Definition languageVersionOf (l : LanguageVersionOrOptions) : Z :=
  match l with
  | ScriptTarget v => v
  | CreateSourceFileOptions v => v
  end.

(** [getSourceFile], lines 64-74. *)
Definition getSourceFile (fileName : string)
    (languageVersionOrOptions : LanguageVersionOrOptions) (w : World)
  : option SourceFile * World :=
  match sourceFiles (this w) !! fileName with
  | Some sf => (Some sf, w)
  | None =>
      let '(content, w1) := readFile fileName w in
      match content with
      | Some t =>
          let result :=
            createSourceFile fileName t (languageVersionOf languageVersionOrOptions) in
          (Some result,
           with_this {| files := files (this w1);
                        fileVersions := fileVersions (this w1);
                        sourceFiles := <[fileName := result]> (sourceFiles (this w1)) |}
             w1)
      | None => (None, w1)
      end
  end.

(** [CustLangServiceHost.getScriptSnapshot], lines 40-45 of
    [cust-lang-service-host.ts]: the snapshot is the text [readFile]
    of the compiler host returns. *)
Definition getScriptSnapshot (fileName : string) (w : World) : option text * World :=
  let '(content, w1) := readFile fileName w in
  match content with
  | Some t => (Some t, w1)
  | None => (None, w1)
  end.

(** A call of one of the methods that change the state, and what
    may happen between two calls: the files behind [ts.sys] change. *)
Inductive HostCall :=
| ReadFile (fileName : string)
| WriteFile (fileName : string) (t : text)
| GetSourceFile (fileName : string) (l : LanguageVersionOrOptions)
| GetScriptSnapshot (fileName : string)
| ApplyTextChanges (fileName : string) (textChanges : ref).

Inductive Event :=
| Call (c : HostCall)
| DiskChanged (disk : gmap string text).

Definition call (c : HostCall) (w : World) : World :=
  match c with
  | ReadFile f => (readFile f w).2
  | WriteFile f t => writeFile f t w
  | GetSourceFile f l => (getSourceFile f l w).2
  | GetScriptSnapshot f => (getScriptSnapshot f w).2
  | ApplyTextChanges f r => (applyTextChanges f r w).2
  end.

Definition event (ev : Event) (w : World) : World :=
  match ev with
  | Call c => call c w
  | DiskChanged disk =>
      {| this := this w; sys_files := disk; sys_reads := sys_reads w;
         arrays := arrays w |}
  end.

Definition calls (cs : list HostCall) (w : World) : World :=
  fold_left (fun w c => call c w) cs w.

Definition events (evs : list Event) (w : World) : World :=
  fold_left (fun w ev => event ev w) evs w.

(** What a call does to the instance: nothing, or it puts the text of
    a path that was not in the store into the store, or it writes a
    path, and besides that it may cache a source file. *)
Inductive hostStep (h : Host) (disk : gmap string text) (h' : Host) : Prop :=
| step_same :
    files h' = files h -> fileVersions h' = fileVersions h -> hostStep h disk h'
| step_cached (f : string) (t : text) :
    files h !! f = None -> disk !! f = Some t ->
    files h' = <[f := t]> (files h) -> fileVersions h' = fileVersions h ->
    hostStep h disk h'
| step_written (f : string) (t : text) (fs : gmap string text) :
    (fs = files h \/ exists t0, files h !! f = None /\ disk !! f = Some t0
                               /\ fs = <[f := t0]> (files h)) ->
    files h' = <[f := t]> fs ->
    fileVersions h' = <[f := default 1 (fileVersions h !! f) + 1]> (fileVersions h) ->
    hostStep h disk h'.

(** Every cached source file carries the text its path reads as. *)
Definition parsesCurrent (w : World) : Prop :=
  forall (p : string) (sf : SourceFile),
    sourceFiles (this w) !! p = Some sf ->
    Some (sf_text sf) = (readFile p w).1.

(** The events that write the text of [p] in the store. *)
Definition writesTo (p : string) (ev : Event) : bool :=
  match ev with
  | Call (WriteFile f _) | Call (ApplyTextChanges f _) => bool_decide (f = p)
  | _ => false
  end.

(** The number behind [getScriptVersion]. *)
Definition versionNumber (fileName : string) (w : World) : Z :=
  default 1 (fileVersions (this w) !! fileName).

(** The edit that takes back [e] on [s]: it replaces what [e] put in
    by what [e] took out. *)
Definition inverseEdit (s : text) (e : TextChange) : TextChange :=
  {| span := {| start := start (span e);
                length' := Z.of_nat (length (newText e)) |};
     newText := slice s (start (span e)) (start (span e) + length' (span e)) |}.

(** By how much a batch changes the length of a text. *)
Definition netGrowth (es : list TextChange) : Z :=
  foldr (fun e acc => Z.of_nat (length (newText e)) - length' (span e) + acc) 0 es.

End HostMethods.

(** ** Trees and values for the properties of [TypeScriptParser] *)

Module ParserSpec.
Import Val TypeScriptParser.

(** A property of the kind and the [singleQuote] property of every
    node of a tree. *)
Fixpoint allNodes (P : Z -> option bool -> bool) (n : Node) : bool :=
  match n with
  | mkNode kind prop children => P kind prop && forallb (allNodes P) children
  end.

(** The tree without the [singleQuote] properties of its string
    literals. *)
Fixpoint withoutQuoteProps (n : Node) : Node :=
  match n with
  | mkNode kind prop children =>
      mkNode kind (if kind =? StringLiteral then None else prop)
        (map withoutQuoteProps children)
  end.

(** A string literal carries [b]. *)
Definition quoteIs (b : bool) (kind : Z) (prop : option bool) : bool :=
  if kind =? StringLiteral
  then match prop with Some b' => Bool.eqb b b' | None => false end
  else true.

(** A value that [merge] assigns as it is. *)
Definition isPrimitive (v : Value) : bool :=
  match v with
  | VObject _ | VUndefined => false
  | _ => true
  end.

(** The keys [makeFormatCodeSettings] assigns or deletes from the
    options. *)
Definition optionKeys : list string :=
  ["newLineCharacter"; "semicolons"; "indentSize"; "tabSize";
   "convertTabsToSpaces";
   "insertSpaceAfterOpeningAndBeforeClosingNonemptyBrackets"]%string.

End ParserSpec.

(** * Properties of [CustCompilerHost] *)

Module HostProps.
Import JS CustCompilerHost PatchSpec.

(** ** The primitives on small inputs *)

Example slice_prefix : slice (txt "01234abc") 0 5 = txt "01234".
Proof. reflexivity. Qed.

Example sliceFrom_suffix : sliceFrom (txt "01234abc") 5 = txt "abc".
Proof. reflexivity. Qed.

Example slice_negative_start : slice (txt "01234abc") (-3) 8 = txt "abc".
Proof. reflexivity. Qed.

Example slice_past_the_end : sliceFrom (txt "abc") 7 = [].
Proof. reflexivity. Qed.

Example sort_descending_stable :
  sort byStartDescending [edit 0 5 "a"; edit 5 0 "b"; edit 5 3 "c"; edit 9 0 "d"]
  = [edit 9 0 "d"; edit 5 0 "b"; edit 5 3 "c"; edit 0 5 "a"].
Proof. reflexivity. Qed.

Example spliceSpec_scenario :
  spliceSpec [edit 5 0 "X"; edit 0 5 "HELLO"] (txt "01234abc") = txt "HELLOXabc".
Proof. reflexivity. Qed.

(** ** Versions *)

Lemma getScriptVersion_writeFile (fileName : string) (t : text) (w : World) :
  getScriptVersion fileName (writeFile fileName t w)
  = pretty (default 1 (fileVersions (this w) !! fileName) + 1).
Proof.
  unfold getScriptVersion, writeFile; simpl.
  by rewrite lookup_insert_eq.
Qed.

Lemma fileVersions_writeAll (fileName : string) (ts : list text) (w : World) :
  default 1 (fileVersions (this (writeAll fileName ts w)) !! fileName)
  = default 1 (fileVersions (this w) !! fileName) + Z.of_nat (length ts).
Proof.
  revert w. induction ts as [|t ts IH]; intros w.
  - simpl. lia.
  - change (writeAll fileName (t :: ts) w)
      with (writeAll fileName ts (writeFile fileName t w)).
    rewrite IH. unfold writeFile at 1; simpl.
    rewrite lookup_insert_eq. simpl. lia.
Qed.

Lemma getScriptVersion_default (fileName : string) (w : World) :
  getScriptVersion fileName w = pretty (default 1 (fileVersions (this w) !! fileName)).
Proof.
  unfold getScriptVersion. by destruct (fileVersions (this w) !! fileName).
Qed.

(** C2, as the code has it: for a path with no version yet,
    [getScriptVersion] reports [n + 1] after [n] writes, so 1 before
    any write and 2 after the first, and one more write reports
    exactly one more, whatever text it writes. *)
Theorem writeFile_version_counts
    (fileName : string) (ts : list text) (t : text) (w : World) :
  fileVersions (this w) !! fileName = None ->
  getScriptVersion fileName (writeAll fileName ts w)
    = pretty (1 + Z.of_nat (length ts))
  /\ getScriptVersion fileName (writeFile fileName t (writeAll fileName ts w))
    = pretty (1 + Z.of_nat (length ts) + 1).
Proof.
  intros Hnew.
  rewrite getScriptVersion_writeFile, getScriptVersion_default,
    fileVersions_writeAll, Hnew.
  done.
Qed.

Lemma writeFile_version_counts_witness :
  getScriptVersion "a.ts" (writeAll "a.ts" [txt "x"] (world ∅ ∅)) = "2"%string
  /\ getScriptVersion "a.ts"
       (writeFile "a.ts" (txt "x") (writeAll "a.ts" [txt "x"] (world ∅ ∅)))
     = "3"%string.
Proof.
  exact (writeFile_version_counts "a.ts" [txt "x"] (txt "x") (world ∅ ∅) eq_refl).
Defined.

(** C2 as the specification words it fails: the first write to a new
    path leaves version 2, not 1. *)
Lemma first_write_version_is_not_1 :
  getScriptVersion "a.ts" (writeFile "a.ts" (txt "x") (world ∅ ∅)) = "2"%string
  /\ getScriptVersion "a.ts" (writeFile "a.ts" (txt "x") (world ∅ ∅)) <> "1"%string.
Proof. split; [reflexivity | discriminate]. Qed.

(** ** Reading through to the backing file system *)

Lemma readFile_store_hit (fileName : string) (t : text) (w : World) :
  files (this w) !! fileName = Some t ->
  readFile fileName w = (Some t, w).
Proof. intros H. unfold readFile. by rewrite H. Qed.

(** A file with content is read from the backing file system once and
    served from the store afterwards. *)
Lemma readFile_caches_content (fileName : string) (t : text) (w : World) :
  files (this w) !! fileName = None ->
  sys_files w !! fileName = Some t ->
  truthyText t = true ->
  exists w1,
    readFile fileName w = (Some t, w1)
    /\ sys_reads w1 = fileName :: sys_reads w
    /\ files (this w1) !! fileName = Some t
    /\ fileVersions (this w1) = fileVersions (this w)
    /\ readFile fileName w1 = (Some t, w1).
Proof.
  intros Hstore Hdisk Ht. unfold readFile at 1, sys_readFile. rewrite Hstore.
  cbn -[truthyText]. rewrite Hdisk, Ht. eexists. split; [reflexivity|].
  repeat split; simpl.
  - apply lookup_insert_eq.
  - apply readFile_store_hit. simpl. apply lookup_insert_eq.
Qed.

(** A file that neither the store nor the backing file system has is
    absent. *)
Lemma readFile_absent (fileName : string) (w : World) :
  files (this w) !! fileName = None ->
  sys_files w !! fileName = None ->
  (readFile fileName w).1 = None.
Proof.
  intros Hstore Hdisk. unfold readFile, sys_readFile. rewrite Hstore.
  cbn. by rewrite Hdisk.
Qed.

(** C4 at an empty file: [readFile] returns its content but does not
    put it in the store, and the second [readFile] reads the backing
    file system again. *)
Theorem readFile_empty_file_is_read_twice :
  let w := world {[ "empty.ts"%string := [] ]} ∅ in
  let '(c1, w1) := readFile "empty.ts" w in
  let '(c2, w2) := readFile "empty.ts" w1 in
  c1 = Some [] /\ c2 = Some []
  /\ files (this w1) !! "empty.ts"%string = None
  /\ sys_reads w1 = ["empty.ts"%string]
  /\ sys_reads w2 = ["empty.ts"%string; "empty.ts"%string].
Proof. vm_compute. repeat split. Qed.

(** ** The caller's array *)

Lemma readFile_arrays (fileName : string) (w : World) :
  arrays (readFile fileName w).2 = arrays w.
Proof.
  unfold readFile, sys_readFile.
  destruct (files (this w) !! fileName); [done|]. cbn.
  destruct (sys_files w !! fileName) as [t|]; [|done].
  by destruct (truthyText t).
Qed.

(** C10: [applyTextChanges] leaves the array it is given as it was,
    elements and order: the sort works on the copy [slice(0)] made. *)
Theorem applyTextChanges_keeps_argument
    (fileName : string) (textChanges : ref) (w : World) :
  arrays (applyTextChanges fileName textChanges w).2 !! textChanges
  = arrays w !! textChanges.
Proof.
  unfold applyTextChanges.
  pose proof (readFile_arrays fileName w) as Hr.
  destruct (readFile fileName w) as [content w1]. simpl in Hr.
  destruct content as [newText0|]; simpl; [|by rewrite Hr].
  unfold Array_slice0.
  destruct (arrays w1 !! textChanges) as [l|] eqn:Hl; simpl; [|by rewrite Hr].
  unfold Array_sort. simpl. rewrite lookup_insert_eq. simpl.
  assert (fresh (dom (arrays w1)) <> textChanges) as Hfresh.
  { intros Heq. apply (is_fresh (dom (arrays w1))).
    rewrite Heq. apply elem_of_dom. by exists l. }
  rewrite !lookup_insert_ne by done.
  by rewrite Hl, <- Hr, Hl.
Qed.

(** ** One edit *)

Lemma clampIndex_inside (len i : Z) : 0 <= i <= len -> clampIndex len i = i.
Proof.
  intros H. unfold clampIndex.
  destruct (Z.ltb_spec i 0); lia.
Qed.

(** On a valid edit the two slices of line 106 are a prefix and a
    suffix of the string. *)
Lemma applyTextChange_valid (s : text) (e : TextChange) :
  withinBounds s e ->
  applyTextChange s e
  = take (Z.to_nat (startOf e)) s ++ newText e ++ drop (Z.to_nat (endOf e)) s.
Proof.
  intros (Hs & Hl & He). unfold endOf, startOf in *.
  unfold applyTextChange, sliceFrom, slice.
  rewrite !clampIndex_inside by lia.
  rewrite Z.sub_0_r. change (Z.to_nat 0) with 0%nat. rewrite drop_0.
  f_equal. f_equal.
  apply take_ge. rewrite length_drop. lia.
Qed.

Lemma applyTextChange_app (p t : text) (e : TextChange) :
  withinBounds p e ->
  applyTextChange (p ++ t) e = applyTextChange p e ++ t.
Proof.
  intros Hb. pose proof Hb as (Hs & Hl & He).
  rewrite !applyTextChange_valid; [| done |].
  - unfold endOf, startOf in *.
    rewrite take_app_le, drop_app_le by lia.
    by rewrite <- !app_assoc.
  - repeat split; try done.
    rewrite length_app. lia.
Qed.

(** ** A sorted batch *)

Ltac unfold_edit := unfold withinBounds, separated, endOf, startOf in *.

(** The edits of a chain below the length of [p] leave what follows
    [p] alone. *)
Lemma applyTextChanges_prefix (es : list TextChange) :
  forall p t : text,
    chain (Z.of_nat (length p)) es ->
    fold_left applyTextChange es (p ++ t) = fold_left applyTextChange es p ++ t.
Proof.
  induction es as [|e es IH]; intros p t Hc; [done|].
  destruct Hc as (Hs & Hl & He & _ & Hc).
  assert (withinBounds p e) as Hb by done.
  simpl. rewrite applyTextChange_app by done.
  rewrite applyTextChange_valid by done.
  assert (Z.of_nat (length (take (Z.to_nat (startOf e)) p)) = startOf e) as Hlen.
  { rewrite length_take. unfold_edit. lia. }
  rewrite <- Hlen in Hc.
  rewrite <- app_assoc, !IH by done.
  by rewrite <- !app_assoc.
Qed.

Lemma chain_ends (es : list TextChange) :
  forall bound, chain bound es -> Forall (fun e => endOf e <= bound) es.
Proof.
  induction es as [|e es IH]; intros bound Hc; [constructor|].
  destruct Hc as (Hs & Hl & He & _ & Hc). constructor; [done|].
  eapply Forall_impl; [apply IH, Hc|].
  simpl. intros e' He'. unfold_edit. lia.
Qed.

(** ** The specification, edit by edit *)

Lemma replacementsAt_cons (e : TextChange) (es : list TextChange) (i : Z) :
  replacementsAt (e :: es) i
  = (if decide (startOf e = i) then newText e else []) ++ replacementsAt es i.
Proof.
  unfold replacementsAt. rewrite filter_cons.
  by destruct (decide (startOf e = i)).
Qed.

Lemma replacementsAt_none (es : list TextChange) (i : Z) :
  Forall (fun e => startOf e <> i) es -> replacementsAt es i = [].
Proof.
  induction 1 as [|e es He _ IH]; [done|].
  rewrite replacementsAt_cons, IH. by destruct (decide (startOf e = i)).
Qed.

Lemma covered_none (es : list TextChange) (i : Z) :
  Forall (fun e => i < startOf e \/ endOf e <= i) es -> covered es i = false.
Proof.
  induction 1 as [|e es He _ IH]; [done|].
  simpl. rewrite IH, orb_false_r.
  destruct (Z.leb_spec (startOf e) i), (Z.ltb_spec i (endOf e)); simpl; lia.
Qed.

Lemma spliceFrom_no_edits (s : text) (i : Z) : spliceFrom [] i s = s.
Proof. revert i. induction s as [|c s IH]; intros i; simpl; by rewrite ?IH. Qed.

Section OneMoreEdit.

(** [e] is valid, and the edits of [es] start before it and end at or
    before its start. *)
Variable e : TextChange.
Variable es : list TextChange.
Hypothesis e_start : 0 <= startOf e.
Hypothesis e_length : 0 <= length' (span e).
Hypothesis es_start : Forall (fun e' => startOf e' < startOf e) es.
Hypothesis es_end : Forall (fun e' => endOf e' <= startOf e) es.

Lemma replacementsAt_from_start (j : Z) :
  startOf e <= j -> replacementsAt es j = [].
Proof.
  intros Hj. apply replacementsAt_none.
  eapply Forall_impl; [apply es_start|]. simpl. lia.
Qed.

Lemma covered_from_start (j : Z) :
  startOf e <= j -> covered es j = false.
Proof.
  intros Hj. apply covered_none.
  eapply Forall_impl; [apply es_end|]. simpl. lia.
Qed.

Lemma spliceFrom_before (a r : text) :
  forall i,
    i + Z.of_nat (length a) = startOf e ->
    spliceFrom (e :: es) i (a ++ r)
    = spliceFrom es i a ++ spliceFrom (e :: es) (startOf e) r.
Proof.
  induction a as [|c a IH]; intros i Hi; simpl in *.
  - replace i with (startOf e) by lia.
    by rewrite replacementsAt_from_start by lia.
  - rewrite replacementsAt_cons.
    destruct (decide (startOf e = i)); [lia|].
    destruct (Z.leb_spec (startOf e) i); [lia|]. simpl.
    rewrite IH by lia. by rewrite <- !app_assoc.
Qed.

Lemma spliceFrom_after (r : text) :
  forall j, startOf e < j -> endOf e <= j -> spliceFrom (e :: es) j r = r.
Proof.
  induction r as [|c r IH]; intros j Hj He; simpl;
    rewrite replacementsAt_cons, replacementsAt_from_start by lia;
    destruct (decide (startOf e = j)); try lia; [done|].
  rewrite covered_from_start by lia.
  destruct (Z.ltb_spec j (endOf e)); [lia|].
  rewrite andb_false_r. simpl. by rewrite IH by lia.
Qed.

Lemma spliceFrom_inside (b r : text) :
  forall j,
    startOf e < j -> j + Z.of_nat (length b) = endOf e ->
    spliceFrom (e :: es) j (b ++ r) = r.
Proof.
  induction b as [|c b IH]; intros j Hj He; simpl in *.
  - apply spliceFrom_after; lia.
  - rewrite replacementsAt_cons, replacementsAt_from_start by lia.
    destruct (decide (startOf e = j)); [lia|].
    destruct (Z.leb_spec (startOf e) j); [|lia].
    destruct (Z.ltb_spec j (endOf e)); [|lia]. simpl.
    apply IH; lia.
Qed.

Lemma spliceFrom_at_start (b r : text) :
  Z.of_nat (length b) = length' (span e) ->
  spliceFrom (e :: es) (startOf e) (b ++ r) = newText e ++ r.
Proof.
  intros Hb.
  assert (endOf e = startOf e + length' (span e)) as Hend by done.
  destruct b as [|c b]; simpl in *.
  - destruct r as [|c r]; simpl;
      rewrite replacementsAt_cons, replacementsAt_from_start by lia;
      (destruct (decide (startOf e = startOf e)); [|done]);
      rewrite !app_nil_r; [done|].
    rewrite covered_from_start by lia.
    destruct (Z.ltb_spec (startOf e) (endOf e)); [lia|].
    rewrite andb_false_r. simpl.
    by rewrite spliceFrom_after by lia.
  - rewrite replacementsAt_cons, replacementsAt_from_start by lia.
    destruct (decide (startOf e = startOf e)); [|done].
    destruct (Z.leb_spec (startOf e) (startOf e)); [|lia].
    destruct (Z.ltb_spec (startOf e) (endOf e)); [|lia]. simpl.
    rewrite app_nil_r. f_equal. apply spliceFrom_inside; lia.
Qed.

Lemma spliceSpec_one_more (s : text) :
  endOf e <= Z.of_nat (length s) ->
  spliceSpec (e :: es) s
  = spliceSpec es (take (Z.to_nat (startOf e)) s)
      ++ newText e ++ drop (Z.to_nat (endOf e)) s.
Proof.
  intros He.
  assert (endOf e = startOf e + length' (span e)) as Hend by done.
  unfold spliceSpec.
  rewrite <- (take_drop (Z.to_nat (startOf e)) s) at 1.
  rewrite spliceFrom_before by (rewrite length_take; lia).
  f_equal.
  rewrite <- (take_drop (Z.to_nat (length' (span e))) (drop (Z.to_nat (startOf e)) s)).
  rewrite spliceFrom_at_start by (rewrite length_take, length_drop; lia).
  rewrite drop_drop. do 2 f_equal. lia.
Qed.

End OneMoreEdit.

(** The sorted batch, applied edit after edit as the code does, gives
    the splice against the original offsets. *)
Lemma applyTextChanges_chain (es : list TextChange) :
  forall s : text,
    chain (Z.of_nat (length s)) es ->
    fold_left applyTextChange es s = spliceSpec es s.
Proof.
  induction es as [|e es IH]; intros s Hc.
  - simpl. unfold spliceSpec. by rewrite spliceFrom_no_edits.
  - pose proof Hc as (Hs & Hl & He & Hlt & Hc').
    assert (Z.of_nat (length (take (Z.to_nat (startOf e)) s)) = startOf e) as Hlen.
    { rewrite length_take. unfold_edit. lia. }
    simpl. rewrite applyTextChange_valid by done.
    rewrite applyTextChanges_prefix by (by rewrite Hlen).
    rewrite IH by (by rewrite Hlen).
    rewrite spliceSpec_one_more; try done.
    by apply chain_ends.
Qed.

(** ** The sort of line 104 *)

Lemma sortInsert_Permutation (x : TextChange) (l : list TextChange) :
  sortInsert byStartDescending x l ≡ₚ x :: l.
Proof.
  induction l as [|y l IH]; simpl; [done|].
  destruct (byStartDescending x y <=? 0); [done|].
  rewrite IH. apply Permutation_swap.
Qed.

Lemma sort_Permutation (l : list TextChange) :
  sort byStartDescending l ≡ₚ l.
Proof.
  induction l as [|x l IH]; simpl; [done|].
  unfold sort in *. simpl. rewrite sortInsert_Permutation. by rewrite IH.
Qed.

Lemma sortInsert_descending (x : TextChange) (l : list TextChange) :
  descending l -> descending (sortInsert byStartDescending x l).
Proof.
  induction l as [|y l IH]; intros Hd; simpl.
  - by split.
  - destruct Hd as (Hy & Hd).
    unfold byStartDescending at 1. fold (startOf y) (startOf x).
    destruct (Z.leb_spec (startOf y - startOf x) 0) as [Hle|Hgt].
    + split; [|done]. constructor; [lia|].
      eapply Forall_impl; [apply Hy|]. simpl. lia.
    + simpl. split; [|by apply IH].
      rewrite sortInsert_Permutation. constructor; [lia|done].
Qed.

Lemma sort_descending (l : list TextChange) :
  descending (sort byStartDescending l).
Proof.
  induction l as [|x l IH]; [done|].
  apply sortInsert_descending, IH.
Qed.

(** ** Batches in another order *)

Lemma separated_sym (a b : TextChange) : separated a b -> separated b a.
Proof. unfold separated. tauto. Qed.

Lemma nonOverlapping_Permutation (es es' : list TextChange) :
  es ≡ₚ es' -> nonOverlapping es -> nonOverlapping es'.
Proof.
  induction 1 as [|x l l' Hp IH|x y l|l l' l'' _ IH1 _ IH2]; simpl.
  - done.
  - intros (Hx & Hl). split; [by rewrite <- Hp | by apply IH].
  - intros (Hy & Hx & Hl). apply Forall_cons in Hy as (Hyx & Hy).
    repeat split; try done.
    constructor; [by apply separated_sym | done].
  - auto.
Qed.

Lemma distinctStarts_Permutation (es es' : list TextChange) :
  es ≡ₚ es' -> distinctStarts es -> distinctStarts es'.
Proof. unfold distinctStarts. intros Hp. by rewrite Hp. Qed.

Lemma covered_Permutation (es es' : list TextChange) (i : Z) :
  es ≡ₚ es' -> covered es i = covered es' i.
Proof.
  unfold covered.
  induction 1 as [|x l l' _ IH|x y l|l l' l'' _ IH1 _ IH2]; simpl.
  - done.
  - by rewrite IH.
  - rewrite !orb_assoc. f_equal. apply orb_comm.
  - congruence.
Qed.

Lemma starts_at_most_once (es : list TextChange) (i : Z) :
  distinctStarts es ->
  (length (filter (fun e => startOf e = i) es) <= 1)%nat.
Proof.
  unfold distinctStarts.
  induction es as [|e es IH]; simpl; intros Hnd; [lia|].
  apply NoDup_cons in Hnd as (Hnotin & Hnd).
  rewrite filter_cons. destruct (decide (startOf e = i)) as [Heq|]; [|by apply IH].
  assert (filter (fun e' => startOf e' = i) es = []) as ->; [|simpl; lia].
  destruct (filter (fun e' => startOf e' = i) es) as [|e' l] eqn:Hf; [done|].
  assert (e' ∈ filter (fun e' => startOf e' = i) es) as Hin
    by (rewrite Hf; apply list_elem_of_here).
  apply list_elem_of_filter in Hin as (Hi & Hin).
  destruct Hnotin. rewrite Heq, <- Hi. apply list_elem_of_fmap. by exists e'.
Qed.

Lemma replacementsAt_Permutation (es es' : list TextChange) (i : Z) :
  es ≡ₚ es' -> distinctStarts es ->
  replacementsAt es i = replacementsAt es' i.
Proof.
  intros Hp Hnd. unfold replacementsAt.
  pose proof (starts_at_most_once es i Hnd) as Hlen.
  assert (filter (fun e => startOf e = i) es ≡ₚ filter (fun e => startOf e = i) es')
    as Hf by (by rewrite Hp).
  destruct (filter (fun e => startOf e = i) es) as [|a [|b l]].
  - by apply Permutation_nil_l in Hf as <-.
  - by apply Permutation_singleton_l in Hf as <-.
  - simpl in Hlen. lia.
Qed.

(** With distinct starts the specification does not depend on the
    order of the batch. *)
Lemma spliceSpec_Permutation (es es' : list TextChange) (s : text) :
  es ≡ₚ es' -> distinctStarts es -> spliceSpec es s = spliceSpec es' s.
Proof.
  intros Hp Hnd. unfold spliceSpec. generalize 0.
  induction s as [|c s IH]; intros i; simpl.
  - by apply replacementsAt_Permutation.
  - by rewrite (replacementsAt_Permutation es es'), (covered_Permutation es es'), IH.
Qed.

(** ** From the conditions on the batch to a chain *)

Lemma descending_strict (es : list TextChange) :
  descending es -> distinctStarts es ->
  match es with
  | [] => True
  | e :: es' => Forall (fun e' => startOf e' < startOf e) es'
  end.
Proof.
  destruct es as [|e es]; [done|].
  intros (Hle & _) Hnd. unfold distinctStarts in Hnd. simpl in Hnd.
  apply NoDup_cons in Hnd as (Hnotin & _).
  apply Forall_forall. intros e' Hin.
  rewrite Forall_forall in Hle. specialize (Hle e' Hin).
  assert (startOf e' <> startOf e); [|lia].
  intros Heq. apply Hnotin. rewrite <- Heq.
  apply list_elem_of_fmap. by exists e'.
Qed.

Lemma chain_of_sorted (es : list TextChange) :
  forall bound,
    Forall (fun e => 0 <= startOf e /\ 0 <= length' (span e) /\ endOf e <= bound) es ->
    descending es -> distinctStarts es -> nonOverlapping es ->
    chain bound es.
Proof.
  induction es as [|e es IH]; intros bound Hb Hd Hnd Hno; [done|].
  pose proof (descending_strict _ Hd Hnd) as Hlt.
  apply Forall_cons in Hb as ((Hs & Hl & He) & Hb).
  destruct Hd as (_ & Hd). destruct Hno as (Hsep & Hno).
  unfold distinctStarts in Hnd. simpl in Hnd.
  apply NoDup_cons in Hnd as (_ & Hnd).
  simpl. repeat split; try done.
  apply IH; try done.
  rewrite Forall_forall in Hb, Hlt, Hsep. apply Forall_forall. intros e' Hin.
  specialize (Hb e' Hin). specialize (Hlt e' Hin). specialize (Hsep e' Hin).
  unfold_edit. lia.
Qed.

(** The sorted batch of valid, non-overlapping edits with distinct
    starts is a chain below the length of the string. *)
Lemma sort_chain (es : list TextChange) (s : text) :
  Forall (withinBounds s) es -> nonOverlapping es -> distinctStarts es ->
  chain (Z.of_nat (length s)) (sort byStartDescending es).
Proof.
  intros Hb Hno Hnd.
  pose proof (sort_Permutation es) as Hp. symmetry in Hp.
  apply chain_of_sorted.
  - by rewrite <- Hp.
  - apply sort_descending.
  - by apply (distinctStarts_Permutation es).
  - by apply (nonOverlapping_Permutation es).
Qed.

(** ** [applyTextChanges] *)

Lemma applyTextChanges_result
    (fileName : string) (textChanges : ref) (edits : list TextChange)
    (s : text) (w : World) :
  (readFile fileName w).1 = Some s ->
  arrays w !! textChanges = Some edits ->
  (applyTextChanges fileName textChanges w).1
  = Some (fold_left applyTextChange (sort byStartDescending edits) s).
Proof.
  intros Hread Hedits. unfold applyTextChanges.
  pose proof (readFile_arrays fileName w) as Hr.
  destruct (readFile fileName w) as [content w1]. simpl in Hr, Hread.
  subst content. unfold Array_slice0. rewrite Hr, Hedits.
  unfold Array_sort. simpl. by rewrite lookup_insert_eq.
Qed.

(** C1, for a batch whose edits also start at distinct offsets: the
    result is the splice of every edit against the original offsets,
    and a batch with the same edits in another order gives the same
    result. *)
Theorem applyTextChanges_splices_original_offsets
    (fileName : string) (textChanges textChanges' : ref)
    (edits edits' : list TextChange) (s : text) (w : World) :
  (readFile fileName w).1 = Some s ->
  arrays w !! textChanges = Some edits ->
  arrays w !! textChanges' = Some edits' ->
  edits ≡ₚ edits' ->
  Forall (withinBounds s) edits ->
  nonOverlapping edits ->
  distinctStarts edits ->
  (applyTextChanges fileName textChanges w).1 = Some (spliceSpec edits s)
  /\ (applyTextChanges fileName textChanges' w).1 = Some (spliceSpec edits s).
Proof.
  intros Hread Hedits Hedits' Hp Hb Hno Hnd.
  rewrite (applyTextChanges_result _ _ edits s), (applyTextChanges_result _ _ edits' s)
    by done.
  rewrite !applyTextChanges_chain.
  - split; f_equal; symmetry; apply spliceSpec_Permutation; try done.
    + symmetry. apply sort_Permutation.
    + etrans; [exact Hp|]. symmetry. apply sort_Permutation.
  - apply sort_chain.
    + by rewrite <- Hp.
    + by apply (nonOverlapping_Permutation edits).
    + by apply (distinctStarts_Permutation edits).
  - by apply sort_chain.
Qed.

(** The batch of the specification's scenario, in both orders. *)
Lemma applyTextChanges_splices_original_offsets_witness :
  let w := world {[ "f.ts"%string := txt "01234abc" ]}
             {[ 1%positive := [edit 5 0 "X"; edit 0 5 "HELLO"];
                2%positive := [edit 0 5 "HELLO"; edit 5 0 "X"] ]} in
  (applyTextChanges "f.ts" 1 w).1 = Some (txt "HELLOXabc")
  /\ (applyTextChanges "f.ts" 2 w).1 = Some (txt "HELLOXabc").
Proof.
  intros w.
  apply (applyTextChanges_splices_original_offsets "f.ts" 1 2
           [edit 5 0 "X"; edit 0 5 "HELLO"] [edit 0 5 "HELLO"; edit 5 0 "X"]
           (txt "01234abc") w).
  - reflexivity.
  - reflexivity.
  - reflexivity.
  - apply perm_swap.
  - repeat constructor; vm_compute; discriminate.
  - simpl. split; [|done].
    constructor; [|constructor]. right. vm_compute. discriminate.
  - apply (bool_decide_unpack _). reflexivity.
Defined.

(** C1 as the specification words it fails: an insertion and a
    replacement that start at the same offset do not overlap, and the
    result depends on the order they come in. *)
Lemma applyTextChanges_equal_starts_order_matters :
  let s := txt "01234abc" in
  let a := edit 5 0 "X" in
  let b := edit 5 3 "R" in
  let w := world {[ "f.ts"%string := s ]}
             {[ 1%positive := [a; b]; 2%positive := [b; a] ]} in
  Forall (withinBounds s) [a; b] /\ nonOverlapping [a; b] /\ [a; b] ≡ₚ [b; a]
  /\ (applyTextChanges "f.ts" 1 w).1 = Some (txt "01234Rc")
  /\ (applyTextChanges "f.ts" 2 w).1 = Some (txt "01234XR")
  /\ (applyTextChanges "f.ts" 1 w).1 <> (applyTextChanges "f.ts" 2 w).1.
Proof.
  intros s a b w.
  split; [|split; [|split; [|split; [|split]]]].
  - repeat constructor; vm_compute; discriminate.
  - simpl. split; [|done].
    constructor; [|constructor]. left. vm_compute. discriminate.
  - apply perm_swap.
  - reflexivity.
  - reflexivity.
  - vm_compute. discriminate.
Qed.

End HostProps.

(** * Properties of [TypeScriptParser] *)

Module ParserProps.
Import Val TypeScriptParser Samples.

(** ** The settings made from the options *)

Section Settings.

Variable EOL : string.
Variable json5Parse : string -> option Value.

Lemma setBracketSpacing_other (options : Options) (format : gmap string Value)
    (key : string) :
  key <> "insertSpaceAfterOpeningAndBeforeClosingNonemptyBrackets"%string ->
  setBracketSpacing options format !! key = format !! key.
Proof.
  intros Hk. unfold setBracketSpacing.
  destruct (bracketSpacing options); try done. by rewrite lookup_insert_ne.
Qed.

Lemma setSemicolons_other (options : Options) (format : gmap string Value)
    (key : string) :
  key <> "semicolons"%string ->
  setSemicolons options format !! key = format !! key.
Proof.
  intros Hk. unfold setSemicolons.
  destruct (semi options); try done. by rewrite lookup_insert_ne.
Qed.

Lemma setTabWidth_other (options : Options) (format : gmap string Value)
    (key : string) :
  key <> "indentSize"%string -> key <> "tabSize"%string ->
  setTabWidth options format !! key = format !! key.
Proof.
  intros Hk1 Hk2. unfold setTabWidth.
  destruct (isNumber (tabWidth options)); [|done].
  by rewrite !lookup_insert_ne.
Qed.

Lemma setUseTabs_other (options : Options) (format : gmap string Value)
    (key : string) :
  key <> "indentSize"%string -> key <> "tabSize"%string ->
  key <> "convertTabsToSpaces"%string ->
  setUseTabs options format !! key = format !! key.
Proof.
  intros Hk1 Hk2 Hk3. unfold setUseTabs.
  destruct (useTabs options); try by rewrite lookup_delete_ne.
  rewrite lookup_insert_eq. simpl.
  destruct (negb b); [destruct (isNumber (tabWidth options))|];
    by rewrite !lookup_insert_ne.
Qed.

(** With [useTabs] true the branch of lines 142-145 is not taken. *)
Lemma setUseTabs_true (options : Options) (format : gmap string Value) :
  useTabs options = VBool true ->
  setUseTabs options format = <["convertTabsToSpaces"%string := VBool false]> format.
Proof.
  intros Hu. unfold setUseTabs. rewrite Hu. by rewrite lookup_insert_eq.
Qed.

(** With [useTabs] false and a numeric [tabWidth] it is. *)
Lemma setUseTabs_false (options : Options) (format : gmap string Value) :
  useTabs options = VBool false -> isNumber (tabWidth options) = true ->
  setUseTabs options format
  = <["indentSize"%string := VNumber 1]>
      (<["tabSize"%string := VNumber 1]>
         (<["convertTabsToSpaces"%string := VBool true]> format)).
Proof.
  intros Hu Hn. unfold setUseTabs. rewrite Hu, Hn. by rewrite lookup_insert_eq.
Qed.

Lemma formatFromOptions_auto (options : Options) :
  endOfLine options = VString "auto" ->
  formatFromOptions EOL options !! "newLineCharacter"%string = None.
Proof.
  intros Heol. unfold formatFromOptions.
  rewrite setBracketSpacing_other, setUseTabs_other, setTabWidth_other,
    setSemicolons_other by done.
  unfold setNewLineCharacter. rewrite Heol.
  change (isString (VString "auto") "crlf") with false.
  change (isString (VString "auto") "lf") with false.
  change (isString (VString "auto") "cr") with false.
  apply lookup_delete_eq.
Qed.

Lemma makeFormatCodeSettings_no_path (options : Options) (e : Env) :
  truthyPath (tspTsFormat options) = None ->
  makeFormatCodeSettings EOL json5Parse options e
  = (Normal (formatFromOptions EOL options), e).
Proof. intros Hp. unfold makeFormatCodeSettings. by rewrite Hp. Qed.

(** C3 on the code: with [useTabs] true and [tabWidth] 4 (and no
    override file) the settings keep tab size and indent size 4; the
    assignment of 1 at line 145 is under [convertTabsToSpaces], which
    is false here. *)
Theorem makeFormatCodeSettings_useTabs_keeps_tabWidth (options : Options) (e : Env) :
  useTabs options = VBool true ->
  tabWidth options = VNumber 4 ->
  truthyPath (tspTsFormat options) = None ->
  exists format,
    (makeFormatCodeSettings EOL json5Parse options e).1 = Normal format
    /\ format !! "tabSize"%string = Some (VNumber 4)
    /\ format !! "indentSize"%string = Some (VNumber 4)
    /\ format !! "convertTabsToSpaces"%string = Some (VBool false).
Proof.
  intros Hu Hw Hp. rewrite makeFormatCodeSettings_no_path by done.
  eexists. split; [reflexivity|].
  unfold formatFromOptions.
  rewrite !setBracketSpacing_other by done.
  rewrite setUseTabs_true by done.
  unfold setTabWidth. rewrite Hw. simpl.
  split; [|split].
  - rewrite !lookup_insert_ne by done. apply lookup_insert_eq.
  - rewrite lookup_insert_ne by done. apply lookup_insert_eq.
  - apply lookup_insert_eq.
Qed.

(** The size is forced to 1 where spaces are requested. *)
Lemma makeFormatCodeSettings_spaces_force_size_1 (options : Options) (e : Env) :
  useTabs options = VBool false ->
  tabWidth options = VNumber 4 ->
  truthyPath (tspTsFormat options) = None ->
  exists format,
    (makeFormatCodeSettings EOL json5Parse options e).1 = Normal format
    /\ format !! "tabSize"%string = Some (VNumber 1)
    /\ format !! "indentSize"%string = Some (VNumber 1)
    /\ format !! "convertTabsToSpaces"%string = Some (VBool true).
Proof.
  intros Hu Hw Hp. rewrite makeFormatCodeSettings_no_path by done.
  eexists. split; [reflexivity|].
  unfold formatFromOptions.
  rewrite !setBracketSpacing_other by done.
  rewrite setUseTabs_false by (by rewrite ?Hw).
  split; [|split].
  - rewrite lookup_insert_ne by done. apply lookup_insert_eq.
  - apply lookup_insert_eq.
  - rewrite !lookup_insert_ne by done. apply lookup_insert_eq.
Qed.

End Settings.

Lemma makeFormatCodeSettings_useTabs_keeps_tabWidth_witness :
  exists format,
    (makeFormatCodeSettings LF json5ParseSample
       (withTabs (VBool true) (VNumber 4)) (env ∅)).1 = Normal format
    /\ format !! "tabSize"%string = Some (VNumber 4)
    /\ format !! "indentSize"%string = Some (VNumber 4)
    /\ format !! "convertTabsToSpaces"%string = Some (VBool false).
Proof.
  apply (makeFormatCodeSettings_useTabs_keeps_tabWidth LF json5ParseSample
           (withTabs (VBool true) (VNumber 4)) (env ∅)); reflexivity.
Defined.

(** ** The override file *)

Lemma merge_other (key : string) (object : gmap string Value) (source : Value) :
  ~ suppliesKey key source -> merge object source !! key = object !! key.
Proof.
  unfold suppliesKey, merge. intros Hk.
  destruct (toBoolean source); [|done].
  revert object. induction (sourceProperties source) as [|[k v] props IH];
    intros object; [done|].
  simpl. rewrite IH.
  - apply lookup_insert_ne. intros ->. apply Hk. simpl. apply list_elem_of_here.
  - intros Hin. apply Hk. simpl. by apply list_elem_of_further.
Qed.

Section Overrides.

Variable EOL : string.
Variable json5Parse : string -> option Value.

(** Once [this.formatOverrides] is truthy nothing is read. *)
Lemma loadFormatOverrides_cached (path : string) (e : Env) :
  toBoolean (formatOverrides (this e)) = true ->
  loadFormatOverrides json5Parse path e = (Normal tt, e).
Proof. intros Ht. unfold loadFormatOverrides. by rewrite Ht. Qed.

Lemma makeFormatCodeSettings_cached (options : Options) (path : string) (e : Env) :
  truthyPath (tspTsFormat options) = Some path ->
  toBoolean (formatOverrides (this e)) = true ->
  makeFormatCodeSettings EOL json5Parse options e
  = (Normal (merge (formatFromOptions EOL options) (formatOverrides (this e))), e).
Proof.
  intros Hp Ht. unfold makeFormatCodeSettings.
  by rewrite Hp, loadFormatOverrides_cached.
Qed.

(** What a first load does. *)
Lemma loadFormatOverrides_first (path text : string) (v : Value) (e : Env) :
  toBoolean (formatOverrides (this e)) = false ->
  fs_files e !! path = Some text ->
  json5Parse text = Some v ->
  loadFormatOverrides json5Parse path e
  = (Normal tt,
     {| this := {| formatOverrides := v |}; fs_files := fs_files e;
        fs_reads := path :: fs_reads e |}).
Proof.
  intros Ht Hf Hv. unfold loadFormatOverrides, readFileSync.
  by rewrite Ht, Hf, Hv.
Qed.

(** A call that returns settings read the file system at most once,
    and left a value in [this.formatOverrides] when a path was given. *)
Lemma makeFormatCodeSettings_normal (options : Options) (e e1 : Env)
    (format : gmap string Value) :
  makeFormatCodeSettings EOL json5Parse options e = (Normal format, e1) ->
  format = match truthyPath (tspTsFormat options) with
           | Some _ => merge (formatFromOptions EOL options) (formatOverrides (this e1))
           | None => formatFromOptions EOL options
           end
  /\ fs_files e1 = fs_files e
  /\ (fs_reads e1 = fs_reads e
      \/ exists path, truthyPath (tspTsFormat options) = Some path
                      /\ fs_reads e1 = path :: fs_reads e).
Proof.
  unfold makeFormatCodeSettings.
  destruct (truthyPath (tspTsFormat options)) as [path|]; [|intros [= <- <-]; auto].
  unfold loadFormatOverrides, readFileSync.
  destruct (toBoolean (formatOverrides (this e))); simpl; [intros [= <- <-]; auto|].
  destruct (fs_files e !! path) as [text|]; [|done].
  destruct (json5Parse text) as [v|]; [|done].
  intros [= <- <-]. simpl. repeat split. right. by exists path.
Qed.

(** Where the value loaded from the override file is truthy (any
    object is), a second call with the same options returns the same
    settings whatever the files on disk have become, reads nothing, and
    the first call read at most one file. *)
Theorem makeFormatCodeSettings_twice
    (options : Options) (e e1 : Env) (format : gmap string Value)
    (disk : gmap string string) :
  makeFormatCodeSettings EOL json5Parse options e = (Normal format, e1) ->
  truthyPath (tspTsFormat options) = None
    \/ toBoolean (formatOverrides (this e1)) = true ->
  makeFormatCodeSettings EOL json5Parse options (withDisk disk e1)
    = (Normal format, withDisk disk e1)
  /\ (length (fs_reads e1) <= S (length (fs_reads e)))%nat.
Proof.
  intros Hcall Hcache.
  apply makeFormatCodeSettings_normal in Hcall as (-> & _ & Hreads).
  split.
  - destruct (truthyPath (tspTsFormat options)) as [path|] eqn:Hp.
    + destruct Hcache as [|Ht]; [done|].
      by rewrite (makeFormatCodeSettings_cached _ path).
    + by rewrite makeFormatCodeSettings_no_path.
  - destruct Hreads as [->|(path & _ & ->)]; simpl; lia.
Qed.

(** Where the value loaded from the first path is truthy, the first
    call reads [path1] and keeps its value, and a later call that
    gives any path merges that value and reads nothing, whatever the
    files on disk. *)
Theorem makeFormatCodeSettings_keeps_first_override
    (options1 options2 : Options) (path1 path2 text : string) (v : Value)
    (e : Env) (disk : gmap string string) :
  truthyPath (tspTsFormat options1) = Some path1 ->
  truthyPath (tspTsFormat options2) = Some path2 ->
  toBoolean (formatOverrides (this e)) = false ->
  fs_files e !! path1 = Some text ->
  json5Parse text = Some v ->
  toBoolean v = true ->
  exists e1,
    makeFormatCodeSettings EOL json5Parse options1 e
      = (Normal (merge (formatFromOptions EOL options1) v), e1)
    /\ fs_reads e1 = path1 :: fs_reads e
    /\ formatOverrides (this e1) = v
    /\ makeFormatCodeSettings EOL json5Parse options2 (withDisk disk e1)
        = (Normal (merge (formatFromOptions EOL options2) v), withDisk disk e1).
Proof.
  intros Hp1 Hp2 Hnew Hfile Hparse Hv.
  eexists. unfold makeFormatCodeSettings at 1.
  rewrite Hp1, (loadFormatOverrides_first path1 text v) by done.
  split; [reflexivity|]. repeat split.
  by rewrite (makeFormatCodeSettings_cached _ path2).
Qed.

(** C7, where the override file does not bring the key back: with
    [endOfLine] "auto" the settings have no [newLineCharacter] when no
    override path is given or the override value has no such
    property. *)
Theorem makeFormatCodeSettings_auto_no_newLineCharacter
    (options : Options) (e e1 : Env) (format : gmap string Value) :
  endOfLine options = VString "auto" ->
  makeFormatCodeSettings EOL json5Parse options e = (Normal format, e1) ->
  truthyPath (tspTsFormat options) = None
    \/ ~ suppliesKey "newLineCharacter" (formatOverrides (this e1)) ->
  format !! "newLineCharacter"%string = None.
Proof.
  intros Heol Hcall Hsrc.
  apply makeFormatCodeSettings_normal in Hcall as (-> & _ & _).
  destruct (truthyPath (tspTsFormat options)) as [path|].
  - destruct Hsrc as [|Hsrc]; [done|].
    rewrite merge_other by done. by apply formatFromOptions_auto.
  - by apply formatFromOptions_auto.
Qed.

(** With the files on disk as they were, a second call with the same
    options returns the same settings, whatever the override file
    parsed to. *)
Lemma makeFormatCodeSettings_twice_same_disk
    (options : Options) (e e1 : Env) (format : gmap string Value) :
  makeFormatCodeSettings EOL json5Parse options e = (Normal format, e1) ->
  (makeFormatCodeSettings EOL json5Parse options e1).1 = Normal format.
Proof.
  unfold makeFormatCodeSettings.
  destruct (truthyPath (tspTsFormat options)) as [path|]; [|by intros [= <- <-]].
  unfold loadFormatOverrides at 1, readFileSync.
  destruct (toBoolean (formatOverrides (this e))) eqn:Hc; simpl.
  - intros [= <- <-]. by rewrite loadFormatOverrides_cached.
  - destruct (fs_files e !! path) as [text|] eqn:Hfile; [|done].
    destruct (json5Parse text) as [v|] eqn:Hparse; [|done].
    intros [= <- <-]. simpl.
    destruct (toBoolean v) eqn:Hv.
    + by rewrite loadFormatOverrides_cached.
    + by rewrite (loadFormatOverrides_first path text v).
Qed.

(** A value that is not truthy is stored but not taken for loaded:
    whatever falsy value the override file parses to, the next call
    reads the file system again. *)
Lemma makeFormatCodeSettings_falsy_read_again
    (options : Options) (e : Env) (path text text' : string) (v v' : Value)
    (disk : gmap string string) :
  truthyPath (tspTsFormat options) = Some path ->
  toBoolean (formatOverrides (this e)) = false ->
  fs_files e !! path = Some text ->
  json5Parse text = Some v ->
  toBoolean v = false ->
  disk !! path = Some text' ->
  json5Parse text' = Some v' ->
  exists e1 e2,
    makeFormatCodeSettings EOL json5Parse options e
      = (Normal (merge (formatFromOptions EOL options) v), e1)
    /\ makeFormatCodeSettings EOL json5Parse options (withDisk disk e1)
       = (Normal (merge (formatFromOptions EOL options) v'), e2)
    /\ fs_reads e2 = path :: path :: fs_reads e.
Proof.
  intros Hp Hnew Hfile Hparse Hv Hfile' Hparse'.
  eexists _, _. unfold makeFormatCodeSettings.
  rewrite Hp, (loadFormatOverrides_first path text v) by done.
  split; [reflexivity|].
  rewrite (loadFormatOverrides_first path text' v') by done.
  split; reflexivity.
Qed.

End Overrides.

Lemma makeFormatCodeSettings_twice_witness :
  let options := withOverrides VUndefined "ts-format.json" in
  let e := env {[ "ts-format.json"%string := "{tabSize: 8}"%string ]} in
  let disk := {[ "ts-format.json"%string := "null"%string ]} in
  let format :=
    merge (formatFromOptions LF options) (VObject [("tabSize"%string, VNumber 8)]) in
  let e1 :=
    {| this := {| formatOverrides := VObject [("tabSize"%string, VNumber 8)] |};
       fs_files := fs_files e; fs_reads := ["ts-format.json"%string] |} in
  makeFormatCodeSettings LF json5ParseSample options e = (Normal format, e1)
  /\ makeFormatCodeSettings LF json5ParseSample options (withDisk disk e1)
     = (Normal format, withDisk disk e1)
  /\ (length (fs_reads e1) <= S (length (fs_reads e)))%nat.
Proof.
  intros options e disk format e1.
  assert (makeFormatCodeSettings LF json5ParseSample options e = (Normal format, e1))
    as Hcall by reflexivity.
  split; [exact Hcall|].
  apply (makeFormatCodeSettings_twice LF json5ParseSample options e e1 format disk Hcall).
  right. reflexivity.
Defined.

(** C6 at an override file that parses to [null]: the first call
    stores [null], which the test of line 154 takes for nothing
    loaded, so the second call with the same options reads the file
    again, and the new content of the file changes the second
    result. *)
Lemma makeFormatCodeSettings_null_override_read_again :
  let options := withOverrides VUndefined "ts-format.json" in
  let e := env {[ "ts-format.json"%string := "null"%string ]} in
  let disk := {[ "ts-format.json"%string := "{tabSize: 8}"%string ]} in
  exists format1 format2 e1 e2,
    makeFormatCodeSettings LF json5ParseSample options e = (Normal format1, e1)
    /\ makeFormatCodeSettings LF json5ParseSample options (withDisk disk e1)
       = (Normal format2, e2)
    /\ format1 !! "tabSize"%string = Some (VNumber 1)
    /\ format2 !! "tabSize"%string = Some (VNumber 8)
    /\ format1 <> format2
    /\ fs_reads e2 = ["ts-format.json"%string; "ts-format.json"%string].
Proof.
  intros options e disk.
  eexists _, _, _, _.
  split; [reflexivity|]. split; [reflexivity|].
  split; [reflexivity|]. split; [reflexivity|]. split; [|reflexivity].
  intros Heq. apply (f_equal (fun m => m !! "tabSize"%string)) in Heq.
  vm_compute in Heq. discriminate Heq.
Qed.

Lemma makeFormatCodeSettings_keeps_first_override_witness :
  let options1 := withOverrides VUndefined "a.json" in
  let options2 := withOverrides VUndefined "b.json" in
  let e := env {[ "a.json"%string := "{tabSize: 8}"%string ]} in
  let disk := {[ "b.json"%string := "{newLineCharacter: '\n'}"%string ]} in
  let v := VObject [("tabSize"%string, VNumber 8)] in
  exists e1,
    makeFormatCodeSettings LF json5ParseSample options1 e
      = (Normal (merge (formatFromOptions LF options1) v), e1)
    /\ fs_reads e1 = "a.json"%string :: fs_reads e
    /\ formatOverrides (this e1) = v
    /\ makeFormatCodeSettings LF json5ParseSample options2 (withDisk disk e1)
        = (Normal (merge (formatFromOptions LF options2) v), withDisk disk e1).
Proof.
  intros options1 options2 e disk v.
  apply (makeFormatCodeSettings_keeps_first_override LF json5ParseSample
           options1 options2 "a.json" "b.json" "{tabSize: 8}" v e disk);
    reflexivity.
Defined.

(** C9 at a first override file that parses to [null]: the first
    call stores [null], which the test of line 154 takes for nothing
    loaded, so the later call with another path reads that path and
    merges its contents. *)
Lemma makeFormatCodeSettings_null_override_reads_second_path :
  let options1 := withOverrides VUndefined "a.json" in
  let options2 := withOverrides VUndefined "b.json" in
  let e := env {[ "a.json"%string := "null"%string;
                  "b.json"%string := "{tabSize: 8}"%string ]} in
  exists format1 format2 e1 e2,
    makeFormatCodeSettings LF json5ParseSample options1 e = (Normal format1, e1)
    /\ makeFormatCodeSettings LF json5ParseSample options2 e1 = (Normal format2, e2)
    /\ fs_reads e1 = ["a.json"%string]
    /\ fs_reads e2 = ["b.json"%string; "a.json"%string]
    /\ format2 !! "tabSize"%string = Some (VNumber 8)
    /\ formatOverrides (this e2) = VObject [("tabSize"%string, VNumber 8)].
Proof.
  intros options1 options2 e.
  eexists _, _, _, _.
  split; [reflexivity|]. split; [reflexivity|].
  repeat split.
Qed.

Lemma makeFormatCodeSettings_auto_no_newLineCharacter_witness :
  let options := withOverrides (VString "auto") "ts-format.json" in
  let e := env {[ "ts-format.json"%string := "{tabSize: 8}"%string ]} in
  exists format e1,
    makeFormatCodeSettings LF json5ParseSample options e = (Normal format, e1)
    /\ format !! "newLineCharacter"%string = None.
Proof.
  intros options e. eexists _, _.
  assert (makeFormatCodeSettings LF json5ParseSample options e
          = (Normal (merge (formatFromOptions LF options)
                       (VObject [("tabSize"%string, VNumber 8)])),
             {| this := {| formatOverrides := VObject [("tabSize"%string, VNumber 8)] |};
                fs_files := fs_files e; fs_reads := ["ts-format.json"%string] |}))
    as Hcall by reflexivity.
  split; [exact Hcall|].
  apply (makeFormatCodeSettings_auto_no_newLineCharacter LF json5ParseSample
           options e _ _ eq_refl Hcall).
  right. unfold suppliesKey. simpl. intros Hin.
  apply list_elem_of_singleton in Hin. discriminate Hin.
Defined.

(** C7 as the specification words it fails: with [endOfLine] "auto"
    an override file that has the key puts it back. *)
Lemma makeFormatCodeSettings_auto_override_newLineCharacter :
  let options := withOverrides (VString "auto") "ts-format.json" in
  let e := env {[ "ts-format.json"%string := "{newLineCharacter: '\n'}"%string ]} in
  exists format e1,
    makeFormatCodeSettings LF json5ParseSample options e = (Normal format, e1)
    /\ format !! "newLineCharacter"%string = Some (VString LF).
Proof.
  intros options e. eexists _, _.
  split; [reflexivity|]. reflexivity.
Qed.

(** ** Printing *)

(** C5: whatever [printNode] does, and whether it returns or throws,
    [ts.getLiteralText] is afterwards what it was before the call, the
    print ran against the patched function, and the call completes as
    the print did. *)
Theorem tsPrintSourceFile_restores_getLiteralText
    (printNode : Node -> TsModule -> Completion string * TsModule)
    (sourceFile : Node) (options : Options) (ts : TsModule) :
  let '(c, ts', sourceFile') := tsPrintSourceFile printNode sourceFile options ts in
  getLiteralText ts' = getLiteralText ts
  /\ c = (printNode sourceFile'
            {| getLiteralText := getLiteralTextPatched (getLiteralText ts) |}).1.
Proof.
  unfold tsPrintSourceFile, try_finally.
  destruct (printNode _ _) as [[a|err] ts2] eqn:Hprint; simpl;
    by rewrite Hprint.
Qed.

(** C8: a preference that is the string "no", "false" or "null" in
    any letter case, or [false], 0, "0" or [null], resolves to double
    quotes ([false]); [true] resolves to single quotes; [undefined]
    resolves to [undefined], and then the call leaves every node of the
    tree as it was. *)
Theorem tsPrintSourceFile_quote_preference (s : string) :
  toLowerCase s = "no"%string \/ toLowerCase s = "false"%string
    \/ toLowerCase s = "null"%string ->
  resolveSingleQuote (VString s) = Some false
  /\ resolveSingleQuote (VBool false) = Some false
  /\ resolveSingleQuote (VNumber 0) = Some false
  /\ resolveSingleQuote (VString "0") = Some false
  /\ resolveSingleQuote VNull = Some false
  /\ resolveSingleQuote (VBool true) = Some true
  /\ resolveSingleQuote VUndefined = None
  /\ forall printNode sourceFile options ts,
       singleQuote options = VUndefined ->
       (tsPrintSourceFile printNode sourceFile options ts).2 = sourceFile.
Proof.
  intros Hs. repeat split.
  - unfold resolveSingleQuote.
    destruct (bool_decide (s = "0"%string)); [done|].
    destruct Hs as [-> | [-> | ->]]; reflexivity.
  - intros printNode sourceFile options ts Hq.
    unfold tsPrintSourceFile. rewrite Hq. simpl.
    unfold try_finally. by destruct (printNode _ _) as [[a|err] ts2].
Qed.

Lemma tsPrintSourceFile_quote_preference_witness :
  resolveSingleQuote (VString "No") = Some false
  /\ resolveSingleQuote (VBool false) = Some false
  /\ resolveSingleQuote (VNumber 0) = Some false
  /\ resolveSingleQuote (VString "0") = Some false
  /\ resolveSingleQuote VNull = Some false
  /\ resolveSingleQuote (VBool true) = Some true
  /\ resolveSingleQuote VUndefined = None
  /\ forall printNode sourceFile options ts,
       singleQuote options = VUndefined ->
       (tsPrintSourceFile printNode sourceFile options ts).2 = sourceFile.
Proof.
  apply (tsPrintSourceFile_quote_preference "No"). left. reflexivity.
Defined.

End ParserProps.

(** * Further properties of the compiler host *)

Module HostMoreProps.
Import JS CustCompilerHost PatchSpec HostMethods HostProps.

(** ** What one call does to the state *)

Lemma readFile_fst (fileName : string) (w : World) :
  (readFile fileName w).1
  = match files (this w) !! fileName with
    | Some t => Some t
    | None => sys_files w !! fileName
    end.
Proof.
  unfold readFile, sys_readFile.
  destruct (files (this w) !! fileName); [done|]. cbn.
  destruct (sys_files w !! fileName) as [t|]; [|done].
  by destruct (truthyText t).
Qed.

Lemma readFile_this (fileName : string) (w : World) :
  this (readFile fileName w).2 = this w
  \/ (files (this w) !! fileName = None
      /\ exists t, sys_files w !! fileName = Some t /\ truthyText t = true
         /\ this (readFile fileName w).2
            = {| files := <[fileName := t]> (files (this w));
                 fileVersions := fileVersions (this w);
                 sourceFiles := sourceFiles (this w) |}).
Proof.
  unfold readFile, sys_readFile.
  destruct (files (this w) !! fileName) eqn:Hf; [by left|]. cbn.
  destruct (sys_files w !! fileName) as [t|]; [|by left].
  destruct (truthyText t) eqn:Ht; [|by left].
  right. split; [done|]. by exists t.
Qed.

Lemma readFile_sys_files (fileName : string) (w : World) :
  sys_files (readFile fileName w).2 = sys_files w.
Proof.
  unfold readFile, sys_readFile.
  destruct (files (this w) !! fileName); [done|]. cbn.
  destruct (sys_files w !! fileName) as [t|]; [|done].
  by destruct (truthyText t).
Qed.

Lemma readFile_versions (fileName : string) (w : World) :
  fileVersions (this (readFile fileName w).2) = fileVersions (this w).
Proof. by destruct (readFile_this fileName w) as [->|(_ & t & _ & _ & ->)]. Qed.

Lemma readFile_sourceFiles (fileName : string) (w : World) :
  sourceFiles (this (readFile fileName w).2) = sourceFiles (this w).
Proof. by destruct (readFile_this fileName w) as [->|(_ & t & _ & _ & ->)]. Qed.

(** What a path reads as is the same before and after a [readFile] of
    any path. *)
Lemma readFile_view (fileName g : string) (w : World) :
  (readFile g (readFile fileName w).2).1 = (readFile g w).1.
Proof.
  rewrite !readFile_fst, readFile_sys_files.
  destruct (readFile_this fileName w) as [->|(Hnone & t & Hdisk & _ & ->)]; [done|].
  simpl. destruct (decide (fileName = g)) as [->|Hne].
  - by rewrite lookup_insert_eq, Hnone, Hdisk.
  - by rewrite lookup_insert_ne.
Qed.

Lemma readFile_keeps_files (fileName g : string) (w : World) :
  is_Some (files (this w) !! g) ->
  files (this (readFile fileName w).2) !! g = files (this w) !! g.
Proof.
  intros Hg.
  destruct (readFile_this fileName w) as [->|(Hnone & t & _ & _ & ->)]; [done|].
  simpl. rewrite lookup_insert_ne; [done|].
  intros ->. rewrite Hnone in Hg. by destruct Hg.
Qed.

(** The state after [applyTextChanges] is the state after its
    [readFile], or a [writeFile] on that state with other arrays. *)
Lemma applyTextChanges_world (fileName : string) (textChanges : ref) (w : World) :
  let w1 := (readFile fileName w).2 in
  let w' := (applyTextChanges fileName textChanges w).2 in
  (this w' = this w1 /\ sys_files w' = sys_files w1
   /\ (applyTextChanges fileName textChanges w).1 = None)
  \/ exists result a,
       (applyTextChanges fileName textChanges w).1 = Some result
       /\ w' = writeFile fileName result (with_arrays a w1).
Proof.
  unfold applyTextChanges. destruct (readFile fileName w) as [content w1]. simpl.
  destruct content as [newText0|]; [|by left].
  unfold Array_slice0.
  destruct (arrays w1 !! textChanges) as [l|]; [|by left].
  unfold Array_sort. simpl. rewrite lookup_insert_eq. simpl.
  right. by eexists _, _.
Qed.

(** ** Writing and reading back *)

(** X1: what [writeFile] stores is what [readFile] returns next, also
    when the text is empty, with no read of the backing file system;
    the snapshot of the path is that text and the path exists. *)
Theorem writeFile_then_readFile (fileName : string) (t : text) (w : World) :
  readFile fileName (writeFile fileName t w) = (Some t, writeFile fileName t w)
  /\ (getScriptSnapshot fileName (writeFile fileName t w)).1 = Some t
  /\ fileExists fileName (writeFile fileName t w) = true
  /\ sys_reads (writeFile fileName t w) = sys_reads w.
Proof.
  assert (files (this (writeFile fileName t w)) !! fileName = Some t) as Hf
    by (simpl; apply lookup_insert_eq).
  repeat split.
  - by apply readFile_store_hit.
  - unfold getScriptSnapshot. by rewrite (readFile_store_hit _ t).
  - unfold fileExists. rewrite Hf. by rewrite bool_decide_true.
Qed.

(** X2: a [writeFile] to one path leaves every other path as it
    was: what it reads as, its version and its cached source file. *)
Theorem writeFile_other_path (fileName g : string) (t : text) (w : World) :
  fileName <> g ->
  (readFile g (writeFile fileName t w)).1 = (readFile g w).1
  /\ getScriptVersion g (writeFile fileName t w) = getScriptVersion g w
  /\ sourceFiles (this (writeFile fileName t w)) !! g = sourceFiles (this w) !! g.
Proof.
  intros Hne. rewrite !readFile_fst. unfold getScriptVersion. simpl.
  rewrite !lookup_insert_ne by done. repeat split.
  destruct (sourceFiles (this w) !! fileName); [|done].
  by rewrite lookup_insert_ne.
Qed.

Lemma writeFile_other_path_witness :
  let w := writeFile "a.ts" (txt "x") (world {[ "b.ts"%string := txt "y" ]} ∅) in
  (readFile "b.ts" (writeFile "a.ts" (txt "z") w)).1 = Some (txt "y")
  /\ getScriptVersion "b.ts" (writeFile "a.ts" (txt "z") w) = "1"%string
  /\ sourceFiles (this (writeFile "a.ts" (txt "z") w)) !! "b.ts"%string = None.
Proof.
  intros w.
  apply (writeFile_other_path "a.ts" "b.ts" (txt "z") w). discriminate.
Defined.

(** ** Source files *)

Lemma getSourceFile_cases (fileName : string) (l : LanguageVersionOrOptions)
    (w : World) :
  (exists sf, sourceFiles (this w) !! fileName = Some sf
              /\ getSourceFile fileName l w = (Some sf, w))
  \/ (sourceFiles (this w) !! fileName = None
      /\ (readFile fileName w).1 = None
      /\ getSourceFile fileName l w = (None, (readFile fileName w).2))
  \/ (sourceFiles (this w) !! fileName = None
      /\ exists t, (readFile fileName w).1 = Some t
         /\ getSourceFile fileName l w
            = (Some (createSourceFile fileName t (languageVersionOf l)),
               with_this
                 {| files := files (this (readFile fileName w).2);
                    fileVersions := fileVersions (this (readFile fileName w).2);
                    sourceFiles :=
                      <[fileName := createSourceFile fileName t (languageVersionOf l)]>
                        (sourceFiles (this (readFile fileName w).2)) |}
                 (readFile fileName w).2)).
Proof.
  unfold getSourceFile.
  destruct (sourceFiles (this w) !! fileName) as [sf|]; [left; by exists sf|].
  right. destruct (readFile fileName w) as [[t|] w1]; simpl.
  - right. split; [done|]. by exists t.
  - by left.
Qed.

(** X3: once [getSourceFile] has returned a source file for a path,
    the next [getSourceFile] of that path returns the same one and
    changes nothing, whatever language version it asks for. *)
Theorem getSourceFile_again (fileName : string) (l l' : LanguageVersionOrOptions)
    (w w1 : World) (sf : SourceFile) :
  getSourceFile fileName l w = (Some sf, w1) ->
  getSourceFile fileName l' w1 = (Some sf, w1).
Proof.
  intros Hget.
  assert (sourceFiles (this w1) !! fileName = Some sf) as Hsf.
  { destruct (getSourceFile_cases fileName l w)
      as [(sf' & Hc & Heq)|[(_ & _ & Heq)|(_ & t & _ & Heq)]];
      rewrite Heq in Hget; inversion Hget; subst; try done.
    simpl. apply lookup_insert_eq. }
  unfold getSourceFile. by rewrite Hsf.
Qed.

Lemma getSourceFile_again_witness :
  let w := world {[ "a.ts"%string := txt "x" ]} ∅ in
  let sf := createSourceFile "a.ts" (txt "x") 99 in
  getSourceFile "a.ts" (CreateSourceFileOptions 5)
    (getSourceFile "a.ts" (ScriptTarget 99) w).2
  = (Some sf, (getSourceFile "a.ts" (ScriptTarget 99) w).2).
Proof.
  intros w sf.
  apply (getSourceFile_again "a.ts" (ScriptTarget 99) (CreateSourceFileOptions 5) w).
  reflexivity.
Defined.

(** X4: for a path with a cached source file, [writeFile] replaces
    the cached source file by one of the new text and of the language
    version the old one had; for a path without, it caches none. *)
Theorem writeFile_refreshes_sourceFile (fileName : string) (t : text)
    (l : LanguageVersionOrOptions) (w : World) :
  match sourceFiles (this w) !! fileName with
  | Some sf =>
      getSourceFile fileName l (writeFile fileName t w)
      = (Some (createSourceFile fileName t (languageVersion sf)),
         writeFile fileName t w)
  | None =>
      sourceFiles (this (writeFile fileName t w)) !! fileName = None
      /\ (getSourceFile fileName l (writeFile fileName t w)).1
         = Some (createSourceFile fileName t (languageVersionOf l))
  end.
Proof.
  destruct (sourceFiles (this w) !! fileName) as [sf|] eqn:Hsf.
  - unfold getSourceFile. simpl. rewrite Hsf. by rewrite lookup_insert_eq.
  - assert (sourceFiles (this (writeFile fileName t w)) !! fileName = None) as Hn
      by (simpl; by rewrite Hsf).
    split; [done|]. unfold getSourceFile. rewrite Hn.
    rewrite (readFile_store_hit _ t); [done|]. simpl. apply lookup_insert_eq.
Qed.

(** ** Sequences of calls *)

Lemma getScriptSnapshot_readFile (fileName : string) (w : World) :
  getScriptSnapshot fileName w = readFile fileName w.
Proof.
  unfold getScriptSnapshot. by destruct (readFile fileName w) as [[t|] w1].
Qed.

Lemma readFile_hostStep (fileName : string) (w : World) :
  hostStep (this w) (sys_files w) (this (readFile fileName w).2).
Proof.
  destruct (readFile_this fileName w) as [->|(Hnone & t & Hdisk & _ & ->)].
  - by apply step_same.
  - by apply (step_cached _ _ _ fileName t).
Qed.

Lemma call_hostStep (c : HostCall) (w : World) :
  hostStep (this w) (sys_files w) (this (call c w))
  /\ sys_files (call c w) = sys_files w.
Proof.
  destruct c as [f|f t|f l|f|f r]; simpl.
  - split; [apply readFile_hostStep | apply readFile_sys_files].
  - split; [|done]. apply (step_written _ _ _ f t (files (this w))); auto.
  - destruct (getSourceFile_cases f l w)
      as [(sf & _ & ->)|[(_ & _ & ->)|(_ & t & _ & ->)]]; simpl.
    + split; [by apply step_same | done].
    + split; [apply readFile_hostStep | apply readFile_sys_files].
    + split; [|apply readFile_sys_files].
      destruct (readFile_hostStep f w) as [H1 H2|g t' H1 H2 H3 H4|g t' fs H1 H2 H3].
      * by apply step_same.
      * by apply (step_cached _ _ _ g t').
      * by apply (step_written _ _ _ g t' fs).
  - rewrite getScriptSnapshot_readFile.
    split; [apply readFile_hostStep | apply readFile_sys_files].
  - destruct (applyTextChanges_world f r w) as [(Hthis & Hsys & _)|(res & a & _ & Heq)].
    + rewrite Hthis, Hsys.
      split; [apply readFile_hostStep | apply readFile_sys_files].
    + rewrite Heq. simpl. split; [|apply readFile_sys_files].
      rewrite readFile_versions.
      apply (step_written _ _ _ f res (files (this (readFile f w).2))); [|done..].
      destruct (readFile_this f w) as [->|(Hnone & t & Hdisk & _ & ->)]; [by left|].
      right. by exists t.
Qed.

Lemma hostStep_keeps_path (h h' : Host) (disk : gmap string text) (p : string) :
  hostStep h disk h' ->
  is_Some (files h !! p) -> is_Some (files h' !! p).
Proof.
  intros [H1 _|f t Hnone _ H1 _|f t fs Hfs H1 _] Hp; rewrite H1; [done|..].
  - rewrite lookup_insert_ne; [done|]. intros ->. rewrite Hnone in Hp. by destruct Hp.
  - destruct (decide (f = p)) as [->|Hne]; [by rewrite lookup_insert_eq|].
    rewrite lookup_insert_ne by done.
    destruct Hfs as [->|(t0 & Hnone & _ & ->)]; [done|].
    rewrite lookup_insert_ne; [done|]. intros ->. rewrite Hnone in Hp. by destruct Hp.
Qed.

Lemma hostStep_versions (h h' : Host) (disk : gmap string text) (p : string) :
  hostStep h disk h' ->
  default 1 (fileVersions h !! p) <= default 1 (fileVersions h' !! p).
Proof.
  intros [_ H2|f t _ _ _ H2|f t fs _ _ H2]; rewrite H2; [done..|].
  destruct (decide (f = p)) as [->|Hne].
  - rewrite lookup_insert_eq. simpl. lia.
  - by rewrite lookup_insert_ne.
Qed.

(** A step that leaves the version of [p] as it was leaves what [p]
    reads as. *)
Lemma hostStep_same_version (h h' : Host) (disk : gmap string text) (p : string) :
  hostStep h disk h' ->
  default 1 (fileVersions h' !! p) = default 1 (fileVersions h !! p) ->
  match files h' !! p with Some t => Some t | None => disk !! p end
  = match files h !! p with Some t => Some t | None => disk !! p end.
Proof.
  intros [H1 _|f t Hnone Hdisk H1 _|f t fs Hfs H1 H2] Hv; rewrite H1; [done|..].
  - destruct (decide (f = p)) as [->|Hne].
    + by rewrite lookup_insert_eq, Hnone, Hdisk.
    + by rewrite lookup_insert_ne.
  - rewrite H2 in Hv. destruct (decide (f = p)) as [->|Hne].
    + rewrite lookup_insert_eq in Hv. simpl in Hv. lia.
    + rewrite lookup_insert_ne by done.
      destruct Hfs as [->|(t0 & Hnone & Hdisk & ->)]; [done|].
      destruct (decide (f = p)) as [->|Hne']; [done|].
      by rewrite lookup_insert_ne.
Qed.

Lemma event_keeps_path (ev : Event) (w : World) (p : string) :
  is_Some (files (this w) !! p) -> is_Some (files (this (event ev w)) !! p).
Proof.
  destruct ev as [c|disk]; simpl; [|done].
  apply (hostStep_keeps_path _ _ (sys_files w)), call_hostStep.
Qed.

Lemma event_not_writing (ev : Event) (w : World) (p : string) :
  is_Some (files (this w) !! p) ->
  writesTo p ev = false ->
  files (this (event ev w)) !! p = files (this w) !! p.
Proof.
  intros Hp Hw. destruct ev as [c|disk]; [|done]. simpl.
  destruct c as [f|f t|f l|f|f r]; simpl in *.
  - by apply readFile_keeps_files.
  - apply bool_decide_eq_false in Hw. by rewrite lookup_insert_ne.
  - destruct (getSourceFile_cases f l w)
      as [(sf & _ & ->)|[(_ & _ & ->)|(_ & t & _ & ->)]]; simpl;
      [done | by apply readFile_keeps_files..].
  - rewrite getScriptSnapshot_readFile. by apply readFile_keeps_files.
  - apply bool_decide_eq_false in Hw.
    destruct (applyTextChanges_world f r w) as [(Hthis & _ & _)|(res & a & _ & Heq)].
    + rewrite Hthis. by apply readFile_keeps_files.
    + rewrite Heq. simpl. rewrite lookup_insert_ne by done.
      by apply readFile_keeps_files.
Qed.

(** X5: a path the store has stays in the store through any calls and
    any changes of the files on disk; [readFile] then answers from the
    store without a read of the backing file system, and the text is
    the one the store had unless a [writeFile] or [applyTextChanges] of
    that path came in between. *)
Theorem store_keeps_path (evs : list Event) (p : string) (w : World) :
  is_Some (files (this w) !! p) ->
  is_Some (files (this (events evs w)) !! p)
  /\ readFile p (events evs w) = (files (this (events evs w)) !! p, events evs w)
  /\ (forallb (fun ev => negb (writesTo p ev)) evs = true ->
      files (this (events evs w)) !! p = files (this w) !! p).
Proof.
  intros Hp.
  assert (is_Some (files (this (events evs w)) !! p)) as Hp'.
  { revert w Hp. induction evs as [|ev evs IH]; intros w Hp; [done|].
    apply IH. by apply event_keeps_path. }
  split; [done|]. split.
  - destruct Hp' as [t Ht]. rewrite Ht. by apply readFile_store_hit.
  - clear Hp'. revert w Hp. induction evs as [|ev evs IH]; intros w Hp Hw; [done|].
    simpl in Hw. apply andb_true_iff in Hw as (Hev & Hw).
    apply negb_true_iff in Hev.
    change (events (ev :: evs) w) with (events evs (event ev w)).
    rewrite IH; [by apply event_not_writing | by apply event_keeps_path | done].
Qed.

Lemma store_keeps_path_witness :
  let w := writeFile "a.ts" (txt "x") (world ∅ ∅) in
  let evs := [DiskChanged {[ "a.ts"%string := txt "on disk" ]};
              Call (ReadFile "a.ts");
              Call (GetSourceFile "a.ts" (ScriptTarget 99))] in
  is_Some (files (this (events evs w)) !! "a.ts"%string)
  /\ readFile "a.ts" (events evs w)
     = (files (this (events evs w)) !! "a.ts"%string, events evs w)
  /\ (forallb (fun ev => negb (writesTo "a.ts" ev)) evs = true ->
      files (this (events evs w)) !! "a.ts"%string = Some (txt "x")).
Proof.
  intros w evs. apply (store_keeps_path evs "a.ts" w). by exists (txt "x").
Defined.

Lemma events_versions (evs : list Event) (p : string) (w : World) :
  versionNumber p w <= versionNumber p (events evs w).
Proof.
  revert w. induction evs as [|ev evs IH]; intros w; [done|].
  change (events (ev :: evs) w) with (events evs (event ev w)).
  etrans; [|apply IH]. destruct ev as [c|disk]; [|done].
  apply (hostStep_versions _ _ (sys_files w)), call_hostStep.
Qed.

(** X6: through any calls and any changes of the files on disk the
    version of a path never goes down, and [getScriptVersion] is its
    decimal numeral. *)
Theorem version_never_decreases (evs : list Event) (p : string) (w : World) :
  getScriptVersion p w = pretty (versionNumber p w)
  /\ getScriptVersion p (events evs w) = pretty (versionNumber p (events evs w))
  /\ versionNumber p w <= versionNumber p (events evs w).
Proof.
  split; [apply getScriptVersion_default|].
  split; [apply getScriptVersion_default|]. apply events_versions.
Qed.

Lemma calls_events (cs : list HostCall) (w : World) :
  calls cs w = events (map Call cs) w.
Proof. revert w. induction cs as [|c cs IH]; intros w; [done|]. apply IH. Qed.

(** X7: when a sequence of calls leaves [getScriptVersion] of a path
    as it was, the snapshot of the path is the one it was: the host
    never changes what a path reads as without changing its version. *)
Theorem same_version_same_snapshot (cs : list HostCall) (p : string) (w : World) :
  getScriptVersion p (calls cs w) = getScriptVersion p w ->
  (getScriptSnapshot p (calls cs w)).1 = (getScriptSnapshot p w).1.
Proof.
  rewrite !getScriptVersion_default, !getScriptSnapshot_readFile.
  intros Hv. apply (inj pretty) in Hv.
  revert w Hv. induction cs as [|c cs IH]; intros w Hv; [done|].
  change (calls (c :: cs) w) with (calls cs (call c w)) in *.
  pose proof (events_versions [Call c] p w) as H1.
  pose proof (events_versions (map Call cs) p (call c w)) as H2.
  rewrite <- calls_events in H2. simpl in H1.
  change (default 1 (fileVersions (this ?x) !! p)) with (versionNumber p x) in *.
  rewrite IH by lia.
  destruct (call_hostStep c w) as (Hstep & Hsys).
  rewrite !readFile_fst, Hsys.
  apply hostStep_same_version; [done|].
  change (default 1 (fileVersions (this ?x) !! p)) with (versionNumber p x). lia.
Qed.

Lemma same_version_same_snapshot_witness :
  let w := world {[ "a.ts"%string := txt "x" ]} ∅ in
  let cs := [ReadFile "a.ts"; WriteFile "b.ts" (txt "y");
             GetSourceFile "a.ts" (ScriptTarget 99)] in
  (getScriptSnapshot "a.ts" (calls cs w)).1 = (getScriptSnapshot "a.ts" w).1.
Proof.
  intros w cs. apply (same_version_same_snapshot cs "a.ts" w). reflexivity.
Defined.

(** ** Source files are never stale *)

Lemma parsesCurrent_ext (w w' : World) :
  files (this w') = files (this w) -> sys_files w' = sys_files w ->
  sourceFiles (this w') = sourceFiles (this w) ->
  parsesCurrent w -> parsesCurrent w'.
Proof.
  intros Hf Hd Hs Hinv p sf. rewrite Hs, readFile_fst, Hf, Hd, <- readFile_fst.
  apply Hinv.
Qed.

Lemma readFile_parsesCurrent (fileName : string) (w : World) :
  parsesCurrent w -> parsesCurrent (readFile fileName w).2.
Proof.
  intros Hinv p sf. rewrite readFile_sourceFiles, readFile_view. apply Hinv.
Qed.

Lemma writeFile_parsesCurrent (fileName : string) (t : text) (w : World) :
  parsesCurrent w -> parsesCurrent (writeFile fileName t w).
Proof.
  intros Hinv p sf Hsf. rewrite readFile_fst. simpl in *.
  destruct (decide (fileName = p)) as [->|Hne].
  - rewrite lookup_insert_eq.
    destruct (sourceFiles (this w) !! p) as [sf0|] eqn:H0; [|by rewrite H0 in Hsf].
    rewrite lookup_insert_eq in Hsf. by inversion Hsf.
  - rewrite lookup_insert_ne by done. rewrite <- readFile_fst. apply Hinv.
    destruct (sourceFiles (this w) !! fileName); [|done].
    by rewrite lookup_insert_ne in Hsf.
Qed.

Lemma getSourceFile_parsesCurrent (fileName : string)
    (l : LanguageVersionOrOptions) (w : World) :
  parsesCurrent w -> parsesCurrent (getSourceFile fileName l w).2.
Proof.
  intros Hinv.
  destruct (getSourceFile_cases fileName l w)
    as [(sf & _ & ->)|[(_ & _ & ->)|(_ & t & Ht & ->)]]; simpl;
    [done | by apply readFile_parsesCurrent |].
  pose proof (readFile_parsesCurrent fileName w Hinv) as Hinv1.
  pose proof (readFile_view fileName fileName w) as Hview.
  intros p sf Hsf. rewrite readFile_fst. simpl in *. rewrite <- readFile_fst.
  destruct (decide (fileName = p)) as [->|Hne].
  - rewrite lookup_insert_eq in Hsf. inversion Hsf; subst. simpl.
    by rewrite Hview.
  - rewrite lookup_insert_ne in Hsf by done. by apply Hinv1.
Qed.

Lemma call_parsesCurrent (c : HostCall) (w : World) :
  parsesCurrent w -> parsesCurrent (call c w).
Proof.
  intros Hinv. destruct c as [f|f t|f l|f|f r]; simpl.
  - by apply readFile_parsesCurrent.
  - by apply writeFile_parsesCurrent.
  - by apply getSourceFile_parsesCurrent.
  - rewrite getScriptSnapshot_readFile. by apply readFile_parsesCurrent.
  - destruct (applyTextChanges_world f r w) as [(Hthis & Hsys & _)|(res & a & _ & ->)].
    + apply (parsesCurrent_ext (readFile f w).2); try by rewrite ?Hthis.
      by apply readFile_parsesCurrent.
    + apply writeFile_parsesCurrent.
      apply (parsesCurrent_ext (readFile f w).2); try done.
      by apply readFile_parsesCurrent.
Qed.

Lemma calls_parsesCurrent (cs : list HostCall) (w : World) :
  parsesCurrent w -> parsesCurrent (calls cs w).
Proof.
  revert w. induction cs as [|c cs IH]; intros w Hinv; [done|].
  apply IH. by apply call_parsesCurrent.
Qed.

(** X8: on a host that started empty, after any sequence of calls,
    the source file [getSourceFile] returns for a path carries the text
    [readFile] returns for that path at that moment: a cached source
    file is never stale. *)
Theorem getSourceFile_is_current
    (cs : list HostCall) (disk : gmap string text)
    (heap : gmap ref (list TextChange))
    (fileName : string) (l : LanguageVersionOrOptions) (sf : SourceFile) :
  (getSourceFile fileName l (calls cs (world disk heap))).1 = Some sf ->
  (readFile fileName (calls cs (world disk heap))).1 = Some (sf_text sf).
Proof.
  intros Hget.
  assert (parsesCurrent (calls cs (world disk heap))) as Hinv
    by (apply calls_parsesCurrent; intros p sf0 H0; simpl in H0;
        by rewrite lookup_empty in H0).
  destruct (getSourceFile_cases fileName l (calls cs (world disk heap)))
    as [(sf0 & H0 & Heq)|[(_ & _ & Heq)|(_ & t & Ht & Heq)]];
    rewrite Heq in Hget; simpl in Hget; inversion Hget; subst.
  - symmetry. by apply Hinv.
  - done.
Qed.

Lemma getSourceFile_is_current_witness :
  let cs := [GetSourceFile "a.ts" (ScriptTarget 99);
             WriteFile "a.ts" (txt "new text")] in
  (readFile "a.ts" (calls cs (world {[ "a.ts"%string := txt "x" ]} ∅))).1
  = Some (txt "new text").
Proof.
  intros cs.
  apply (getSourceFile_is_current cs {[ "a.ts"%string := txt "x" ]} ∅ "a.ts"
           (ScriptTarget 7) (createSourceFile "a.ts" (txt "new text") 99)).
  reflexivity.
Defined.

(** ** What [applyTextChanges] leaves behind *)

(** X9: when [applyTextChanges] returns a text, the store holds that
    text for the path, the version of the path is one more than it
    was, a [readFile] returns the text with no further read of the
    backing file system, and the text is the one the path read as when
    the batch is empty. *)
Theorem applyTextChanges_stores_result
    (fileName : string) (textChanges : ref) (edits : list TextChange)
    (s : text) (w : World) :
  (readFile fileName w).1 = Some s ->
  arrays w !! textChanges = Some edits ->
  exists result,
    let w' := (applyTextChanges fileName textChanges w).2 in
    (applyTextChanges fileName textChanges w).1 = Some result
    /\ readFile fileName w' = (Some result, w')
    /\ versionNumber fileName w' = versionNumber fileName w + 1
    /\ (edits = [] -> result = s).
Proof.
  intros Hread Hedits.
  pose proof (applyTextChanges_result fileName textChanges edits s w Hread Hedits)
    as Hres.
  eexists. simpl. split; [exact Hres|].
  destruct (applyTextChanges_world fileName textChanges w)
    as [(_ & _ & Hnone)|(res & a & Hsome & ->)]; [by rewrite Hnone in Hres|].
  rewrite Hsome in Hres. inversion Hres; subst res. repeat split.
  - apply readFile_store_hit. simpl. apply lookup_insert_eq.
  - unfold versionNumber. simpl. rewrite lookup_insert_eq, readFile_versions. done.
  - by intros ->.
Qed.

Lemma applyTextChanges_stores_result_witness :
  let w := world {[ "f.ts"%string := txt "01234abc" ]} {[ 1%positive := [] ]} in
  exists result,
    let w' := (applyTextChanges "f.ts" 1 w).2 in
    (applyTextChanges "f.ts" 1 w).1 = Some result
    /\ readFile "f.ts" w' = (Some result, w')
    /\ versionNumber "f.ts" w' = versionNumber "f.ts" w + 1
    /\ (@nil TextChange = [] -> result = txt "01234abc").
Proof.
  intros w.
  apply (applyTextChanges_stores_result "f.ts" 1 [] (txt "01234abc") w);
    reflexivity.
Defined.

(** ** Single edits *)

(** X10: a valid edit is taken back by the edit that replaces what it
    put in by what it took out. *)
Theorem applyTextChange_inverse (s : text) (e : TextChange) :
  withinBounds s e ->
  applyTextChange (applyTextChange s e) (inverseEdit s e) = s.
Proof.
  intros Hb. pose proof Hb as (Hs & Hl & He).
  assert (endOf e = startOf e + length' (span e)) as Hend by done.
  assert (length (take (Z.to_nat (startOf e)) s) = Z.to_nat (startOf e)) as Htake
    by (rewrite length_take; lia).
  rewrite (applyTextChange_valid s e) by done.
  rewrite applyTextChange_valid.
  - unfold inverseEdit, startOf, endOf. simpl. fold (startOf e).
    rewrite take_app_length' by done.
    replace (Z.to_nat (startOf e + Z.of_nat (length (newText e))))
      with (length (take (Z.to_nat (startOf e)) s ++ newText e))
      by (rewrite length_app, Htake; lia).
    rewrite (app_assoc _ (newText e) (drop _ s)), drop_app_length.
    unfold slice. rewrite !clampIndex_inside by (unfold startOf in *; lia).
    rewrite <- Hend.
    replace (Z.to_nat (endOf e - startOf e)) with (Z.to_nat (length' (span e))) by lia.
    replace (Z.to_nat (endOf e))
      with (Z.to_nat (startOf e) + Z.to_nat (length' (span e)))%nat by lia.
    rewrite <- drop_drop.
    by rewrite take_drop, take_drop.
  - unfold withinBounds, inverseEdit, startOf, endOf. simpl. fold (startOf e).
    repeat split; [done | lia |].
    rewrite !length_app, Htake, length_drop. lia.
Qed.

Lemma applyTextChange_inverse_witness :
  applyTextChange (applyTextChange (txt "01234abc") (edit 2 3 "HELLO"))
    (inverseEdit (txt "01234abc") (edit 2 3 "HELLO"))
  = txt "01234abc".
Proof.
  apply (applyTextChange_inverse (txt "01234abc") (edit 2 3 "HELLO")).
  repeat split; vm_compute; discriminate.
Defined.

(** X11: an edit that reaches the end of the text or lies past it
    does not fail: the text is cut at the start of the edit (kept
    whole when the start is past the end) and the replacement is
    appended. *)
Theorem applyTextChange_clipped (s : text) (e : TextChange) :
  0 <= startOf e ->
  Z.of_nat (length s) <= endOf e ->
  applyTextChange s e = take (Z.to_nat (startOf e)) s ++ newText e.
Proof.
  intros Hs He. unfold endOf, startOf in *.
  unfold applyTextChange, sliceFrom, slice.
  set (len := Z.of_nat (length s)) in *.
  assert (clampIndex len 0 = 0) as ->
    by (unfold clampIndex; destruct (Z.ltb_spec 0 0); lia).
  assert (clampIndex len (start (span e)) = Z.min (start (span e)) len) as ->
    by (unfold clampIndex; destruct (Z.ltb_spec (start (span e)) 0); lia).
  assert (clampIndex len (start (span e) + length' (span e)) = len) as ->
    by (unfold clampIndex;
        destruct (Z.ltb_spec (start (span e) + length' (span e)) 0); lia).
  assert (clampIndex len len = len) as ->
    by (unfold clampIndex; destruct (Z.ltb_spec len 0); lia).
  rewrite Z.sub_diag, Z.sub_0_r. change (Z.to_nat 0) with 0%nat.
  rewrite take_0, app_nil_r, drop_0. f_equal.
  destruct (Z.le_ge_cases (start (span e)) len).
  - by rewrite Z.min_l.
  - rewrite Z.min_r by lia. subst len. rewrite !take_ge by lia. done.
Qed.

Lemma applyTextChange_clipped_witness :
  applyTextChange (txt "abc") (edit 7 2 "X") = txt "abcX".
Proof.
  apply (applyTextChange_clipped (txt "abc") (edit 7 2 "X")); vm_compute; discriminate.
Defined.

(** ** The length of the result *)

Lemma netGrowth_Permutation (es es' : list TextChange) :
  es ≡ₚ es' -> netGrowth es = netGrowth es'.
Proof.
  unfold netGrowth.
  induction 1 as [|x l l' _ IH|x y l|l l' l'' _ IH1 _ IH2]; simpl; lia.
Qed.

Lemma chain_length (es : list TextChange) :
  forall s : text,
    chain (Z.of_nat (length s)) es ->
    Z.of_nat (length (fold_left applyTextChange es s))
    = Z.of_nat (length s) + netGrowth es.
Proof.
  induction es as [|e es IH]; intros s Hc; [simpl; lia|].
  pose proof Hc as (Hs & Hl & He & _ & Hc').
  assert (Z.of_nat (length (take (Z.to_nat (startOf e)) s)) = startOf e) as Hlen
    by (rewrite length_take; unfold endOf, startOf in *; lia).
  simpl. rewrite applyTextChange_valid by done.
  rewrite applyTextChanges_prefix by (by rewrite Hlen).
  rewrite !length_app, length_drop, !Nat2Z.inj_add, IH by (by rewrite Hlen).
  rewrite Hlen. unfold endOf, startOf in *. lia.
Qed.

(** X12: for a batch of valid, non-overlapping edits that start at
    distinct offsets, the text [applyTextChanges] returns is as long as
    the original text, plus the length of every replacement, minus the
    length of every replaced range. *)
Theorem applyTextChanges_length
    (fileName : string) (textChanges : ref) (edits : list TextChange)
    (s : text) (w : World) :
  (readFile fileName w).1 = Some s ->
  arrays w !! textChanges = Some edits ->
  Forall (withinBounds s) edits ->
  nonOverlapping edits ->
  distinctStarts edits ->
  exists result,
    (applyTextChanges fileName textChanges w).1 = Some result
    /\ Z.of_nat (length result) = Z.of_nat (length s) + netGrowth edits.
Proof.
  intros Hread Hedits Hb Hno Hnd.
  eexists. split; [by apply (applyTextChanges_result _ _ edits s)|].
  rewrite chain_length by (by apply sort_chain).
  f_equal. apply netGrowth_Permutation, sort_Permutation.
Qed.

Lemma applyTextChanges_length_witness :
  let w := world {[ "f.ts"%string := txt "01234abc" ]}
             {[ 1%positive := [edit 5 0 "X"; edit 0 5 "HELLO!"] ]} in
  exists result,
    (applyTextChanges "f.ts" 1 w).1 = Some result
    /\ Z.of_nat (length result) = 8 + (1 - 0 + (6 - 5 + 0)).
Proof.
  intros w.
  apply (applyTextChanges_length "f.ts" 1 [edit 5 0 "X"; edit 0 5 "HELLO!"]
           (txt "01234abc") w).
  - reflexivity.
  - reflexivity.
  - repeat constructor; vm_compute; discriminate.
  - simpl. split; [|done].
    constructor; [|constructor]. right. vm_compute. discriminate.
  - apply (bool_decide_unpack _). reflexivity.
Defined.

(** ** Reading through, once *)

(** X23: a path that is not in the store and whose backing file has
    content is read from the backing file system once; the version of
    the path stays what it was, and from then on [readFile] returns
    that content with no further read, whatever the file on disk has
    become. *)
Theorem readFile_reads_through_once
    (fileName : string) (t : text) (w : World) (disk : gmap string text) :
  files (this w) !! fileName = None ->
  sys_files w !! fileName = Some t ->
  truthyText t = true ->
  exists w1,
    readFile fileName w = (Some t, w1)
    /\ sys_reads w1 = fileName :: sys_reads w
    /\ getScriptVersion fileName w1 = getScriptVersion fileName w
    /\ readFile fileName (event (DiskChanged disk) w1)
       = (Some t, event (DiskChanged disk) w1).
Proof.
  intros Hstore Hdisk Ht.
  destruct (readFile_caches_content fileName t w Hstore Hdisk Ht)
    as (w1 & Hread & Hreads & Hfiles & Hvers & _).
  exists w1. repeat split; try done.
  - unfold getScriptVersion. by rewrite Hvers.
  - by apply readFile_store_hit.
Qed.

Lemma readFile_reads_through_once_witness :
  let w := world {[ "a.ts"%string := txt "x" ]} ∅ in
  exists w1,
    readFile "a.ts" w = (Some (txt "x"), w1)
    /\ sys_reads w1 = ["a.ts"%string]
    /\ getScriptVersion "a.ts" w1 = "1"%string
    /\ readFile "a.ts" (event (DiskChanged ∅) w1)
       = (Some (txt "x"), event (DiskChanged ∅) w1).
Proof.
  intros w.
  apply (readFile_reads_through_once "a.ts" (txt "x") w ∅); reflexivity.
Defined.

End HostMoreProps.

(** * Further properties of the parser *)

Module ParserMoreProps.
Import Val TypeScriptParser Samples ParserSpec ParserProps.

(** ** Tagging the string literals *)

(** Induction on a tree, with the property for all children. *)
Lemma Node_children_ind (P : Node -> Prop) :
  (forall kind prop children, Forall P children -> P (mkNode kind prop children)) ->
  forall n, P n.
Proof.
  intros Hnode. fix IH 1. intros [kind prop children]. apply Hnode.
  induction children as [|c cs IHcs]; constructor; [apply IH | exact IHcs].
Qed.

Lemma visitNode_tags (b : bool) (n : Node) :
  allNodes (quoteIs b) (visitNode b n) = true.
Proof.
  induction n as [kind prop children IH] using Node_children_ind. simpl.
  apply andb_true_iff. split.
  - unfold quoteIs. destruct (kind =? StringLiteral); [|done]. by destruct b.
  - apply forallb_forall. intros c Hc. apply in_map_iff in Hc as (c0 & <- & Hc0).
    rewrite Forall_forall in IH. apply IH. by apply list_elem_of_In.
Qed.

Lemma visitNode_others (b : bool) (n : Node) :
  withoutQuoteProps (visitNode b n) = withoutQuoteProps n.
Proof.
  induction n as [kind prop children IH] using Node_children_ind. simpl.
  f_equal; [by destruct (kind =? StringLiteral)|].
  rewrite map_map. apply map_ext_in. intros c Hc.
  rewrite Forall_forall in IH. apply IH. by apply list_elem_of_In.
Qed.

Lemma visitNode_last_wins (b b' : bool) (n : Node) :
  visitNode b (visitNode b' n) = visitNode b n.
Proof.
  induction n as [kind prop children IH] using Node_children_ind. simpl.
  f_equal; [by destruct (kind =? StringLiteral)|].
  rewrite map_map. apply map_ext_in. intros c Hc.
  rewrite Forall_forall in IH. apply IH. by apply list_elem_of_In.
Qed.

(** X13: when the quote preference resolves to a boolean, the tree
    [tsPrintSourceFile] leaves has that boolean on every string
    literal, at any depth, and is otherwise the tree it was given:
    same shape, same kinds, same properties on the other nodes. *)
Theorem tsPrintSourceFile_tags_string_literals
    (printNode : Node -> TsModule -> Completion string * TsModule)
    (sourceFile : Node) (options : Options) (ts : TsModule) (b : bool) :
  resolveSingleQuote (singleQuote options) = Some b ->
  allNodes (quoteIs b) (tsPrintSourceFile printNode sourceFile options ts).2 = true
  /\ withoutQuoteProps (tsPrintSourceFile printNode sourceFile options ts).2
     = withoutQuoteProps sourceFile.
Proof.
  intros Hq.
  assert ((tsPrintSourceFile printNode sourceFile options ts).2
          = visitNode b sourceFile) as ->.
  { unfold tsPrintSourceFile, try_finally. rewrite Hq.
    by destruct (printNode _ _) as [[a|err] ts2]. }
  split; [apply visitNode_tags | apply visitNode_others].
Qed.

Lemma tsPrintSourceFile_tags_string_literals_witness :
  let tree := mkNode 308 None [mkNode 10 None []; mkNode 79 None [mkNode 10 (Some true) []]] in
  let options := {| endOfLine := VUndefined; semi := VUndefined; tabWidth := VUndefined;
                    useTabs := VUndefined; bracketSpacing := VUndefined;
                    tspTsFormat := None; singleQuote := VString "no" |} in
  let printNode := fun (_ : Node) (ts : TsModule) => (Normal ""%string, ts) in
  let ts := {| getLiteralText := fun _ _ _ => ""%string |} in
  allNodes (quoteIs false) (tsPrintSourceFile printNode tree options ts).2 = true
  /\ withoutQuoteProps (tsPrintSourceFile printNode tree options ts).2
     = withoutQuoteProps tree.
Proof.
  intros tree options printNode ts.
  apply (tsPrintSourceFile_tags_string_literals printNode tree options ts false).
  reflexivity.
Defined.

(** X14: printing again, the tree and the [ts] module being as the
    first print left them, gives the same completion and leaves the
    same tree and module. *)
Theorem tsPrintSourceFile_twice
    (printNode : Node -> TsModule -> Completion string * TsModule)
    (sourceFile : Node) (options : Options) (ts : TsModule) :
  let '(c, ts', sourceFile') := tsPrintSourceFile printNode sourceFile options ts in
  tsPrintSourceFile printNode sourceFile' options ts' = (c, ts', sourceFile').
Proof.
  unfold tsPrintSourceFile, try_finally.
  set (tree := match resolveSingleQuote (singleQuote options) with
               | Some b => visitNode b sourceFile
               | None => sourceFile
               end).
  assert (match resolveSingleQuote (singleQuote options) with
          | Some b => visitNode b tree
          | None => tree
          end = tree) as Htree.
  { unfold tree. destruct (resolveSingleQuote (singleQuote options)); [|done].
    apply visitNode_last_wins. }
  destruct (printNode tree _) as [[a|err] ts2] eqn:Hprint; simpl;
    rewrite Htree, Hprint; done.
Qed.

(** ** The quote preference on other values *)

(** X15: a string that is not empty, not "0" and not one of "false",
    "null", "no" in any letter case requests single quotes, and so do
    a number other than 0 and an object; the empty string and [NaN]
    resolve to [undefined], as an absent preference does. *)
Theorem resolveSingleQuote_other_values
    (s : string) (n : Z) (fields : list (string * Value)) :
  s <> ""%string -> s <> "0"%string ->
  toLowerCase s <> "false"%string -> toLowerCase s <> "null"%string ->
  toLowerCase s <> "no"%string ->
  n <> 0 ->
  resolveSingleQuote (VString s) = Some true
  /\ resolveSingleQuote (VNumber n) = Some true
  /\ resolveSingleQuote (VObject fields) = Some true
  /\ resolveSingleQuote (VString "") = None
  /\ resolveSingleQuote VNaN = None.
Proof.
  intros Hs H0 Hf Hnull Hno Hn. repeat split.
  - unfold resolveSingleQuote.
    rewrite !bool_decide_false by done. simpl. by rewrite bool_decide_false.
  - by destruct n.
Qed.

Lemma resolveSingleQuote_other_values_witness :
  resolveSingleQuote (VString "yes") = Some true
  /\ resolveSingleQuote (VNumber 1) = Some true
  /\ resolveSingleQuote (VObject []) = Some true
  /\ resolveSingleQuote (VString "") = None
  /\ resolveSingleQuote VNaN = None.
Proof.
  apply (resolveSingleQuote_other_values "yes" 1 []); discriminate.
Defined.

(** ** The settings made from the options *)

Section MoreSettings.

Variable EOL : string.
Variable json5Parse : string -> option Value.

Lemma setNewLineCharacter_other (options : Options) (format : gmap string Value)
    (key : string) :
  key <> "newLineCharacter"%string ->
  setNewLineCharacter options format !! key = format !! key.
Proof.
  intros Hk. unfold setNewLineCharacter.
  repeat destruct (isString _ _); by rewrite ?lookup_insert_ne, ?lookup_delete_ne.
Qed.

(** X16: without an override file, the settings differ from
    [DefaultFormatCodeSettings] at most at the six keys the options
    are mapped to; every other key has its default value, whatever
    the options are. *)
Theorem makeFormatCodeSettings_other_keys_default
    (options : Options) (e : Env) (key : string) :
  truthyPath (tspTsFormat options) = None ->
  key ∉ optionKeys ->
  exists format,
    makeFormatCodeSettings EOL json5Parse options e = (Normal format, e)
    /\ format !! key = DefaultFormatCodeSettings EOL !! key.
Proof.
  intros Hp Hk. rewrite makeFormatCodeSettings_no_path by done.
  eexists. split; [reflexivity|].
  unfold optionKeys in Hk. rewrite !not_elem_of_cons in Hk.
  destruct Hk as (H1 & H2 & H3 & H4 & H5 & H6 & _).
  unfold formatFromOptions.
  by rewrite setBracketSpacing_other, setUseTabs_other, setTabWidth_other,
    setSemicolons_other, setNewLineCharacter_other.
Qed.

(** X17: without an override file, [newLineCharacter] is CR LF, LF
    or CR for the values "crlf", "lf" and "cr" of [endOfLine], and the
    key is absent for every other value, "auto", an absent one and
    "CRLF" in capitals among them. *)
Theorem makeFormatCodeSettings_newLineCharacter (options : Options) (e : Env) :
  truthyPath (tspTsFormat options) = None ->
  exists format,
    makeFormatCodeSettings EOL json5Parse options e = (Normal format, e)
    /\ format !! "newLineCharacter"%string
       = match endOfLine options with
         | VString s =>
             if bool_decide (s = "crlf"%string) then Some (VString CRLF)
             else if bool_decide (s = "lf"%string) then Some (VString LF)
             else if bool_decide (s = "cr"%string) then Some (VString CR)
             else None
         | _ => None
         end.
Proof.
  intros Hp. rewrite makeFormatCodeSettings_no_path by done.
  eexists. split; [reflexivity|].
  unfold formatFromOptions.
  rewrite setBracketSpacing_other, setUseTabs_other, setTabWidth_other,
    setSemicolons_other by done.
  unfold setNewLineCharacter, isString.
  destruct (endOfLine options) as [| |b|n| |s|fields];
    try apply lookup_delete_eq.
  repeat case_bool_decide; by rewrite ?lookup_insert_eq, ?lookup_delete_eq.
Qed.

(** X18: without an override file, when [useTabs] is false and
    [tabWidth] is a number, tab size and indent size are 1 whatever the
    width, and [convertTabsToSpaces] is true. *)
Theorem makeFormatCodeSettings_spaces_size_1
    (options : Options) (e : Env) (width : Z) :
  useTabs options = VBool false ->
  tabWidth options = VNumber width ->
  truthyPath (tspTsFormat options) = None ->
  exists format,
    makeFormatCodeSettings EOL json5Parse options e = (Normal format, e)
    /\ format !! "tabSize"%string = Some (VNumber 1)
    /\ format !! "indentSize"%string = Some (VNumber 1)
    /\ format !! "convertTabsToSpaces"%string = Some (VBool true).
Proof.
  intros Hu Hw Hp. rewrite makeFormatCodeSettings_no_path by done.
  eexists. split; [reflexivity|].
  unfold formatFromOptions.
  rewrite !setBracketSpacing_other by done.
  rewrite setUseTabs_false by (by rewrite ?Hw).
  split; [|split].
  - rewrite lookup_insert_ne by done. apply lookup_insert_eq.
  - apply lookup_insert_eq.
  - rewrite !lookup_insert_ne by done. apply lookup_insert_eq.
Qed.

(** X19: without an override file, when [useTabs] is not a boolean
    the settings have no [convertTabsToSpaces] key, and tab size and
    indent size are [tabWidth] when it is a number and the default 1
    when it is not. *)
Theorem makeFormatCodeSettings_no_useTabs (options : Options) (e : Env) :
  (forall b, useTabs options <> VBool b) ->
  truthyPath (tspTsFormat options) = None ->
  exists format,
    makeFormatCodeSettings EOL json5Parse options e = (Normal format, e)
    /\ format !! "convertTabsToSpaces"%string = None
    /\ format !! "tabSize"%string
       = Some (if isNumber (tabWidth options) then tabWidth options else VNumber 1)
    /\ format !! "indentSize"%string
       = Some (if isNumber (tabWidth options) then tabWidth options else VNumber 1).
Proof.
  intros Hu Hp. rewrite makeFormatCodeSettings_no_path by done.
  eexists. split; [reflexivity|].
  unfold formatFromOptions.
  rewrite !setBracketSpacing_other by done.
  assert (forall format, setUseTabs options format
                         = delete "convertTabsToSpaces"%string format) as ->.
  { intros format. unfold setUseTabs.
    destruct (useTabs options) as [| |b|n| |s|fields]; try done. by destruct (Hu b). }
  rewrite lookup_delete_eq, !lookup_delete_ne by done.
  unfold setTabWidth. destruct (isNumber (tabWidth options)).
  - split; [done|]. split.
    + rewrite lookup_insert_ne by done. apply lookup_insert_eq.
    + apply lookup_insert_eq.
  - rewrite !setSemicolons_other, !setNewLineCharacter_other by done.
    split; [done|]. split; reflexivity.
Qed.

End MoreSettings.

Lemma makeFormatCodeSettings_other_keys_default_witness :
  exists format,
    makeFormatCodeSettings LF json5ParseSample (withTabs (VBool false) (VNumber 4)) (env ∅)
    = (Normal format, env ∅)
    /\ format !! "trimTrailingWhitespace"%string
       = DefaultFormatCodeSettings LF !! "trimTrailingWhitespace"%string.
Proof.
  apply (makeFormatCodeSettings_other_keys_default LF json5ParseSample
           (withTabs (VBool false) (VNumber 4)) (env ∅) "trimTrailingWhitespace").
  - reflexivity.
  - unfold optionKeys. rewrite !not_elem_of_cons. repeat split; try discriminate.
    apply not_elem_of_nil.
Defined.

Lemma makeFormatCodeSettings_newLineCharacter_witness :
  exists format,
    makeFormatCodeSettings LF json5ParseSample
      {| endOfLine := VString "CRLF"; semi := VUndefined; tabWidth := VUndefined;
         useTabs := VUndefined; bracketSpacing := VUndefined; tspTsFormat := None;
         singleQuote := VUndefined |} (env ∅)
    = (Normal format, env ∅)
    /\ format !! "newLineCharacter"%string = None.
Proof.
  apply (makeFormatCodeSettings_newLineCharacter LF json5ParseSample
           {| endOfLine := VString "CRLF"; semi := VUndefined; tabWidth := VUndefined;
              useTabs := VUndefined; bracketSpacing := VUndefined; tspTsFormat := None;
              singleQuote := VUndefined |} (env ∅)).
  reflexivity.
Defined.

Lemma makeFormatCodeSettings_spaces_size_1_witness :
  exists format,
    makeFormatCodeSettings LF json5ParseSample (withTabs (VBool false) (VNumber 2)) (env ∅)
    = (Normal format, env ∅)
    /\ format !! "tabSize"%string = Some (VNumber 1)
    /\ format !! "indentSize"%string = Some (VNumber 1)
    /\ format !! "convertTabsToSpaces"%string = Some (VBool true).
Proof.
  apply (makeFormatCodeSettings_spaces_size_1 LF json5ParseSample
           (withTabs (VBool false) (VNumber 2)) (env ∅) 2); reflexivity.
Defined.

Lemma makeFormatCodeSettings_no_useTabs_witness :
  exists format,
    makeFormatCodeSettings LF json5ParseSample (withTabs VUndefined (VNumber 2)) (env ∅)
    = (Normal format, env ∅)
    /\ format !! "convertTabsToSpaces"%string = None
    /\ format !! "tabSize"%string = Some (VNumber 2)
    /\ format !! "indentSize"%string = Some (VNumber 2).
Proof.
  apply (makeFormatCodeSettings_no_useTabs LF json5ParseSample
           (withTabs VUndefined (VNumber 2)) (env ∅)).
  - intros b. discriminate.
  - reflexivity.
Defined.

(** ** The override file over the options *)

Lemma merge_object (object : gmap string Value) (fields : list (string * Value)) :
  merge object (VObject fields)
  = fold_left
      (fun (o : gmap string Value) '(key, srcValue) =>
         <[key := mergedProperty (o !! key) srcValue]> o)
      fields object.
Proof. reflexivity. Qed.

Lemma merge_assigns (object : gmap string Value) (fields : list (string * Value))
    (key : string) (v : Value) :
  NoDup fields.*1 -> (key, v) ∈ fields -> isPrimitive v = true ->
  merge object (VObject fields) !! key = Some v.
Proof.
  intros Hnd Hin Hv. rewrite merge_object. revert object.
  induction fields as [|[k v'] fields IH]; intros object; [by inversion Hin|].
  simpl in Hnd. apply NoDup_cons in Hnd as (Hk & Hnd).
  apply elem_of_cons in Hin as [Heq|Hin].
  - inversion Heq; subst k v'. simpl.
    rewrite <- merge_object, merge_other by done.
    rewrite lookup_insert_eq. by destruct v.
  - simpl. by apply IH.
Qed.

Lemma merge_keeps_keys (object : gmap string Value) (source : Value) (key : string) :
  is_Some (object !! key) -> is_Some (merge object source !! key).
Proof.
  unfold merge. destruct (toBoolean source); [|done].
  revert object. induction (sourceProperties source) as [|[k v] props IH];
    intros object Hk; [done|].
  simpl. apply IH. destruct (decide (k = key)) as [->|Hne].
  - by rewrite lookup_insert_eq.
  - by rewrite lookup_insert_ne.
Qed.

Section MoreOverrides.

Variable EOL : string.
Variable json5Parse : string -> option Value.

(** X20: a key the override file sets to a string, a number, a
    boolean or [null] has that value in the settings, whatever the
    options say about it. *)
Theorem makeFormatCodeSettings_override_wins
    (options : Options) (e : Env) (path text : string)
    (fields : list (string * Value)) (key : string) (v : Value) :
  truthyPath (tspTsFormat options) = Some path ->
  toBoolean (formatOverrides (this e)) = false ->
  fs_files e !! path = Some text ->
  json5Parse text = Some (VObject fields) ->
  NoDup fields.*1 ->
  (key, v) ∈ fields ->
  isPrimitive v = true ->
  exists format e1,
    makeFormatCodeSettings EOL json5Parse options e = (Normal format, e1)
    /\ format !! key = Some v.
Proof.
  intros Hp Hnew Hfile Hparse Hnd Hin Hv.
  unfold makeFormatCodeSettings.
  rewrite Hp, (loadFormatOverrides_first _ path text (VObject fields)) by done.
  eexists _, _. split; [reflexivity|]. simpl. by apply merge_assigns.
Qed.

(** X21: the settings a call returns have every key of
    [DefaultFormatCodeSettings] other than [newLineCharacter] and
    [convertTabsToSpaces], whatever the options and the override file
    are: no option and no override removes a setting. *)
Theorem makeFormatCodeSettings_keeps_keys
    (options : Options) (e e1 : Env) (format : gmap string Value) (key : string) :
  makeFormatCodeSettings EOL json5Parse options e = (Normal format, e1) ->
  is_Some (DefaultFormatCodeSettings EOL !! key) ->
  key <> "newLineCharacter"%string ->
  key <> "convertTabsToSpaces"%string ->
  is_Some (format !! key).
Proof.
  intros Hcall Hdef Hnl Hct.
  assert (is_Some (formatFromOptions EOL options !! key)) as Hfmt.
  { unfold formatFromOptions.
    assert (is_Some (setNewLineCharacter options (DefaultFormatCodeSettings EOL) !! key))
      as H1 by (by rewrite setNewLineCharacter_other).
    assert (forall format0, is_Some (format0 !! key) ->
              is_Some (setSemicolons options format0 !! key)) as H2.
    { intros format0 H0. unfold setSemicolons. destruct (semi options); try done.
      destruct (decide ("semicolons"%string = key)) as [<-|Hne];
        by rewrite ?lookup_insert_eq, ?lookup_insert_ne. }
    assert (forall (k : string) (x : Value) (format0 : gmap string Value),
              is_Some (format0 !! key) -> is_Some (<[k := x]> format0 !! key)) as Hins.
    { intros k x format0 H0. destruct (decide (k = key)) as [<-|Hne];
        by rewrite ?lookup_insert_eq, ?lookup_insert_ne. }
    assert (forall format0, is_Some (format0 !! key) ->
              is_Some (setTabWidth options format0 !! key)) as H3.
    { intros format0 H0. unfold setTabWidth.
      destruct (isNumber (tabWidth options)); auto. }
    assert (forall format0, is_Some (format0 !! key) ->
              is_Some (setUseTabs options format0 !! key)) as H4.
    { intros format0 H0. unfold setUseTabs.
      destruct (useTabs options); try by rewrite lookup_delete_ne.
      rewrite lookup_insert_eq. simpl.
      destruct (negb b); [destruct (isNumber (tabWidth options))|]; auto. }
    assert (forall format0, is_Some (format0 !! key) ->
              is_Some (setBracketSpacing options format0 !! key)) as H5.
    { intros format0 H0. unfold setBracketSpacing.
      destruct (bracketSpacing options); auto. }
    auto. }
  apply makeFormatCodeSettings_normal in Hcall as (-> & _ & _).
  destruct (truthyPath (tspTsFormat options)); [|done].
  by apply merge_keeps_keys.
Qed.

(** X22: when the override file is missing, or json5 cannot parse
    it, the call throws and the instance keeps no override; a later
    call on the same instance, the file being there and well formed,
    loads it and merges it. *)
Theorem makeFormatCodeSettings_failed_load_not_cached
    (options : Options) (e : Env) (path text : string) (v : Value)
    (disk : gmap string string) :
  truthyPath (tspTsFormat options) = Some path ->
  toBoolean (formatOverrides (this e)) = false ->
  fs_files e !! path = None
    \/ (exists bad, fs_files e !! path = Some bad /\ json5Parse bad = None) ->
  disk !! path = Some text ->
  json5Parse text = Some v ->
  exists err e1,
    makeFormatCodeSettings EOL json5Parse options e = (Throw err, e1)
    /\ this e1 = this e
    /\ fs_reads e1 = path :: fs_reads e
    /\ (makeFormatCodeSettings EOL json5Parse options (withDisk disk e1)).1
       = Normal (merge (formatFromOptions EOL options) v).
Proof.
  intros Hp Hnew Hbad Hdisk Hparse.
  assert (forall e1, this e1 = this e ->
            (makeFormatCodeSettings EOL json5Parse options (withDisk disk e1)).1
            = Normal (merge (formatFromOptions EOL options) v)) as Hretry.
  { intros e1 Hthis. unfold makeFormatCodeSettings.
    rewrite Hp, (loadFormatOverrides_first _ path text v); try done.
    simpl. by rewrite Hthis. }
  unfold makeFormatCodeSettings at 1, loadFormatOverrides, readFileSync.
  rewrite Hp, Hnew. simpl.
  destruct Hbad as [Hnone|(bad & Hsome & Hbad)].
  - rewrite Hnone. eexists _, _. split; [reflexivity|]. repeat split.
    by apply Hretry.
  - rewrite Hsome, Hbad. eexists _, _. split; [reflexivity|]. repeat split.
    by apply Hretry.
Qed.

End MoreOverrides.

Lemma makeFormatCodeSettings_override_wins_witness :
  exists format e1,
    makeFormatCodeSettings LF json5ParseSample
      {| endOfLine := VUndefined; semi := VUndefined; tabWidth := VNumber 4;
         useTabs := VBool true; bracketSpacing := VUndefined;
         tspTsFormat := Some "ts-format.json"%string; singleQuote := VUndefined |}
      (env {[ "ts-format.json"%string := "{tabSize: 8}"%string ]})
    = (Normal format, e1)
    /\ format !! "tabSize"%string = Some (VNumber 8).
Proof.
  apply (makeFormatCodeSettings_override_wins LF json5ParseSample _ _
           "ts-format.json" "{tabSize: 8}" [("tabSize"%string, VNumber 8)]);
    try reflexivity.
  - apply NoDup_singleton.
  - apply list_elem_of_here.
Defined.

Lemma makeFormatCodeSettings_keeps_keys_witness :
  let options :=
    {| endOfLine := VString "auto"; semi := VBool false; tabWidth := VNumber 4;
       useTabs := VBool true; bracketSpacing := VBool true;
       tspTsFormat := Some "ts-format.json"%string; singleQuote := VUndefined |} in
  let override := VObject [("tabSize"%string, VNumber 8)] in
  let format := merge (formatFromOptions LF options) override in
  makeFormatCodeSettings LF json5ParseSample options
    (env {[ "ts-format.json"%string := "{tabSize: 8}"%string ]})
  = (Normal format,
     {| this := {| formatOverrides := override |};
        fs_files := {[ "ts-format.json"%string := "{tabSize: 8}"%string ]};
        fs_reads := ["ts-format.json"%string] |})
  /\ format !! "tabSize"%string = Some (VNumber 8)
  /\ is_Some (format !! "tabSize"%string)
  /\ is_Some (format !! "semicolons"%string)
  /\ is_Some (format !! "indentStyle"%string).
Proof.
  intros options override format.
  assert (makeFormatCodeSettings LF json5ParseSample options
            (env {[ "ts-format.json"%string := "{tabSize: 8}"%string ]})
          = (Normal format,
             {| this := {| formatOverrides := override |};
                fs_files := {[ "ts-format.json"%string := "{tabSize: 8}"%string ]};
                fs_reads := ["ts-format.json"%string] |})) as Hcall by reflexivity.
  split; [exact Hcall|]. split; [reflexivity|].
  repeat split;
    (eapply (makeFormatCodeSettings_keeps_keys LF json5ParseSample options);
     [exact Hcall | by eexists | discriminate | discriminate]).
Defined.

Lemma makeFormatCodeSettings_failed_load_not_cached_witness :
  let options := withOverrides VUndefined "ts-format.json" in
  exists err e1,
    makeFormatCodeSettings LF json5ParseSample options (env ∅) = (Throw err, e1)
    /\ this e1 = this (env ∅)
    /\ fs_reads e1 = ["ts-format.json"%string]
    /\ (makeFormatCodeSettings LF json5ParseSample options
          (withDisk {[ "ts-format.json"%string := "{tabSize: 8}"%string ]} e1)).1
       = Normal (merge (formatFromOptions LF options)
                   (VObject [("tabSize"%string, VNumber 8)])).
Proof.
  intros options.
  apply (makeFormatCodeSettings_failed_load_not_cached LF json5ParseSample options
           (env ∅) "ts-format.json" "{tabSize: 8}"); try reflexivity.
  left. reflexivity.
Defined.

End ParserMoreProps.
